(** * RecipeBookManager: the domain store and its derived queries

    A shallow embedding of [src/contexts/AppContext.tsx] (the store held by
    [AppProvider]) and of the three list filters of [BooksScreen],
    [RecipesScreen] and [CollectionDetailScreen], with the properties of the
    specification stated over them.

    Data is kept the way the TypeScript code has it: arrays are lists (order
    and duplicates matter), optional fields are [option], strings are
    sequences of UTF-16 code units. *)

From Stdlib Require Import Strings.String Strings.Ascii.
From Stdlib Require Import Bool Arith NArith ZArith QArith Lia Lqa.
From Stdlib Require Import List Sorting.Sorted Sorting.Permutation.
Import ListNotations.
Close Scope Q_scope.
Open Scope nat_scope.

Set Implicit Arguments.

(** ** JavaScript strings *)

(** A JavaScript string is a sequence of 16-bit code units. *)
Definition jsstring := list N.

(** Code units of one code point: itself in the basic plane, a surrogate pair
    above it. *)
Definition units_of_code_point (cp : N) : jsstring :=
  if (cp <? 65536)%N then [cp]
  else [(55296 + (cp - 65536) / 1024)%N; (56320 + (cp - 65536) mod 1024)%N].

(** The source files are UTF-8; [utf8_units] turns the bytes of a literal into
    the code units the JavaScript engine holds for it.  [pending] counts the
    continuation bytes still expected and [acc] collects their payload. *)
Fixpoint utf8_units (pending : nat) (acc : N) (bs : list N) : jsstring :=
  match bs with
  | [] => []
  | b :: bs' =>
    match pending with
    | O =>
      if (b <? 128)%N then b :: utf8_units 0 0%N bs'
      else if (b <? 224)%N then utf8_units 1 (b mod 32)%N bs'
      else if (b <? 240)%N then utf8_units 2 (b mod 16)%N bs'
      else utf8_units 3 (b mod 8)%N bs'
    | S O => units_of_code_point (acc * 64 + b mod 64)%N ++ utf8_units 0 0%N bs'
    | S p => utf8_units p (acc * 64 + b mod 64)%N bs'
    end
  end.

Definition js (s : string) : jsstring :=
  utf8_units 0 0%N (map N_of_ascii (list_ascii_of_string s)).

(** [a === b] on strings. *)
Fixpoint str_eqb (a b : jsstring) : bool :=
  match a, b with
  | [], [] => true
  | x :: a', y :: b' => (x =? y)%N && str_eqb a' b'
  | _, _ => false
  end.

(** [s.startsWith(p)] and [s.includes(q)] of [String.prototype]. *)
Fixpoint startsWith (s p : jsstring) : bool :=
  match p, s with
  | [], _ => true
  | x :: p', y :: s' => (x =? y)%N && startsWith s' p'
  | _ :: _, [] => false
  end.

Fixpoint includes (s q : jsstring) : bool :=
  startsWith s q ||
  match s with
  | [] => false
  | _ :: s' => includes s' q
  end.

(** [tags.includes(tag)] of [Array.prototype], on an array of strings. *)
Definition Array_includes (l : list jsstring) (x : jsstring) : bool :=
  existsb (fun y => str_eqb y x) l.

(** [toLowerCase] on the letters of Basic Latin and of the Latin-1 Supplement
    (A-Z, and U+00C0-U+00DE without the multiplication sign); every other
    code unit is kept.  It is the instance the worked examples run with; the
    general statements below hold for any lower-casing function. *)
Definition lower_unit (c : N) : N :=
  if ((65 <=? c) && (c <=? 90))%N then (c + 32)%N
  else if ((192 <=? c) && (c <=? 222) && negb (c =? 215))%N then (c + 32)%N
  else c.

Definition toLowerCase_latin1 (s : jsstring) : jsstring := map lower_unit s.

(** ** Entities ([src/models/types.ts]) *)

Module Book.
Record t := mk {
  id : jsstring;
  title : jsstring;
  author : jsstring;
  pseudonym : option jsstring;
  editor : option jsstring;
  year : option Z;
  coverImage : option jsstring;
  category : option jsstring;
  createdAt : jsstring
}.
End Book.

Module Recipe.
Record t := mk {
  id : jsstring;
  name : jsstring;
  bookId : option jsstring;
  tags : list jsstring;
  notes : jsstring;
  isFavorite : bool;
  recipeImage : option jsstring;
  createdAt : jsstring
}.
End Recipe.

Module Collection.
Record t := mk {
  id : jsstring;
  name : jsstring;
  tags : list jsstring;
  createdAt : jsstring
}.
End Collection.

Record CategorySuggestion := mkSuggestion {
  category : jsstring;
  confidence : Q
}.

(** ** The store ([src/contexts/AppContext.tsx]) *)

(** The four [useState] cells of [AppProvider]. *)
Record Store := mkStore {
  books : list Book.t;
  recipes : list Recipe.t;
  tags : list jsstring;
  collections : list Collection.t
}.

(** *** State setters

    A call [setX(updater)] does not run [updater]: React queues it and
    applies the queued updaters, in call order, to the cell when the provider
    next renders.  An operation of the store therefore runs in two steps: its
    body, which reads the rendered snapshot, queues updaters and returns; and
    the render that follows, which applies the queue ([flush]).  The README
    names React Native 0.81.5 with Expo 54: updates made in one handler are
    batched and rendered after the handler has returned.  (React may compute
    the first updater queued on an idle component already at the call; a
    later call of the same body is always queued, and for an updater without
    side effect the difference cannot be observed.)

    One updater of the source has a side effect: the one [deleteBook] passes
    to [setRecipes] increments [detachedCount], a local of the call that
    queued it.  [Eff] threads that cell through an updater. *)

Class Monad (M : Type -> Type) := {
  ret : forall A, A -> M A;
  bind : forall A B, M A -> (A -> M B) -> M B
}.
Arguments ret {M _ A} _.
Arguments bind {M _ A B} _ _.

Declare Scope monad_scope.
Delimit Scope monad_scope with monad.
Notation "x <- m ;; k" := (bind m (fun x => k))
  (at level 61, m at next level, right associativity) : monad_scope.
Notation "m ;; k" := (bind m (fun _ => k))
  (at level 61, right associativity) : monad_scope.
Open Scope monad_scope.

Definition Eff (A : Type) : Type := nat -> A * nat.

#[global] Instance Eff_monad : Monad Eff := {
  ret _ a := fun n => (a, n);
  bind _ _ m k := fun n => let (a, n') := m n in k a n'
}.

(** [detachedCount++] *)
Definition incr : Eff unit := fun n => (tt, S n).

(** [array.map(callback)]: the callback runs on the elements from left to
    right. *)
Fixpoint Array_map {A B} (f : A -> Eff B) (l : list A) : Eff (list B) :=
  match l with
  | [] => ret []
  | x :: l' => y <- f x ;; ys <- Array_map f l' ;; ret (y :: ys)
  end.

Inductive Update :=
| SetBooks (u : list Book.t -> list Book.t)
| SetRecipes (u : list Recipe.t -> Eff (list Recipe.t))
| SetTags (u : list jsstring -> list jsstring)
| SetCollections (u : list Collection.t -> list Collection.t).

(** What the body of an operation can touch besides the rendered snapshot:
    the local [detachedCount] and the queue of updaters. *)
Record Frame := mkFrame {
  detachedCount : nat;
  queue : list Update
}.

Definition Handler (A : Type) : Type := Store -> Frame -> A * Frame.

#[global] Instance Handler_monad : Monad Handler := {
  ret _ a := fun _ fr => (a, fr);
  bind _ _ m k := fun s fr => let (a, fr') := m s fr in k a s fr'
}.

Definition enqueue (u : Update) : Handler unit :=
  fun _ fr => (tt, mkFrame (detachedCount fr) (queue fr ++ [u])).

Definition setBooks (u : list Book.t -> list Book.t) : Handler unit :=
  enqueue (SetBooks u).
Definition setRecipes (u : list Recipe.t -> Eff (list Recipe.t)) : Handler unit :=
  enqueue (SetRecipes u).
Definition setTags (u : list jsstring -> list jsstring) : Handler unit :=
  enqueue (SetTags u).
Definition setCollections (u : list Collection.t -> list Collection.t) : Handler unit :=
  enqueue (SetCollections u).

(** An updater without side effect. *)
Definition pure {A B} (f : A -> B) : A -> Eff B := fun a => ret (f a).

(** [let detachedCount = n] and the read of it in [return detachedCount]. *)
Definition let_detachedCount (n : nat) : Handler unit :=
  fun _ fr => (tt, mkFrame n (queue fr)).
Definition read_detachedCount : Handler nat :=
  fun _ fr => (detachedCount fr, fr).

(** [tags] of the enclosing render, as the closures of the provider see it. *)
Definition rendered {A} (cell : Store -> A) : Handler A :=
  fun s fr => (cell s, fr).

(** The render: each queued updater is applied to its cell, in call order. *)
Definition apply_update (u : Update) (st : Store * nat) : Store * nat :=
  let (s, n) := st in
  match u with
  | SetBooks f => (mkStore (f (books s)) (recipes s) (tags s) (collections s), n)
  | SetRecipes f =>
    let (rs, n') := f (recipes s) n in
    (mkStore (books s) rs (tags s) (collections s), n')
  | SetTags f => (mkStore (books s) (recipes s) (f (tags s)) (collections s), n)
  | SetCollections f => (mkStore (books s) (recipes s) (tags s) (f (collections s)), n)
  end.

Definition flush (q : list Update) (st : Store * nat) : Store * nat :=
  fold_left (fun st u => apply_update u st) q st.

(** One call of an operation from the rendered state [s]: the value it
    returns, and the state (with the final content of [detachedCount]) once
    the provider has rendered again. *)
Definition returned {A} (h : Handler A) (s : Store) : A :=
  fst (h s (mkFrame 0 [])).

Definition rendered_after {A} (h : Handler A) (s : Store) : Store * nat :=
  let (_, fr) := h s (mkFrame 0 []) in flush (queue fr) (s, detachedCount fr).

Definition after {A} (h : Handler A) (s : Store) : Store :=
  fst (rendered_after h s).

(** *** Operations *)

Definition addBook (book : Book.t) : Handler unit :=
  setBooks (fun prevBooks => prevBooks ++ [book]).

Definition updateBook (book : Book.t) : Handler unit :=
  setBooks (fun prevBooks =>
    map (fun b => if str_eqb (Book.id b) (Book.id book) then book else b) prevBooks).

(** [r.bookId === bookId], where [r.bookId] may be [undefined]. *)
Definition bookId_is (r : Recipe.t) (bookId : jsstring) : bool :=
  match Recipe.bookId r with
  | Some b => str_eqb b bookId
  | None => false
  end.

(** [{ ...r, bookId: undefined }] *)
Definition without_book (r : Recipe.t) : Recipe.t :=
  Recipe.mk (Recipe.id r) (Recipe.name r) None (Recipe.tags r) (Recipe.notes r)
    (Recipe.isFavorite r) (Recipe.recipeImage r) (Recipe.createdAt r).

Definition deleteBook (bookId : jsstring) : Handler nat :=
  setBooks (fun prevBooks =>
    filter (fun b => negb (str_eqb (Book.id b) bookId)) prevBooks) ;;
  let_detachedCount 0 ;;
  setRecipes (fun prevRecipes =>
    Array_map (fun r =>
      if bookId_is r bookId
      then incr ;; ret (without_book r)
      else ret r) prevRecipes) ;;
  read_detachedCount.

(** The tail shared by [addRecipe] and [updateRecipe]: [tags] is the array
    of the enclosing render, [prevTags] the cell at the time of the update. *)
Definition register_tags (recipe : Recipe.t) : Handler unit :=
  tags <- rendered tags ;;
  let newTags := filter (fun tag => negb (Array_includes tags tag)) (Recipe.tags recipe) in
  if (0 <? length newTags)%nat
  then setTags (fun prevTags => prevTags ++ newTags)
  else ret tt.

Definition addRecipe (recipe : Recipe.t) : Handler unit :=
  setRecipes (pure (fun prevRecipes => prevRecipes ++ [recipe])) ;;
  register_tags recipe.

Definition updateRecipe (recipe : Recipe.t) : Handler unit :=
  setRecipes (pure (fun prevRecipes =>
    map (fun r => if str_eqb (Recipe.id r) (Recipe.id recipe) then recipe else r)
      prevRecipes)) ;;
  register_tags recipe.

Definition deleteRecipe (recipeId : jsstring) : Handler unit :=
  setRecipes (pure (fun prevRecipes =>
    filter (fun r => negb (str_eqb (Recipe.id r) recipeId)) prevRecipes)).

(** [{ ...r, isFavorite: !r.isFavorite }] *)
Definition flip_favorite (r : Recipe.t) : Recipe.t :=
  Recipe.mk (Recipe.id r) (Recipe.name r) (Recipe.bookId r) (Recipe.tags r)
    (Recipe.notes r) (negb (Recipe.isFavorite r)) (Recipe.recipeImage r)
    (Recipe.createdAt r).

Definition toggleFavorite (recipeId : jsstring) : Handler unit :=
  setRecipes (pure (fun prevRecipes =>
    map (fun r => if str_eqb (Recipe.id r) recipeId then flip_favorite r else r)
      prevRecipes)).

Definition addTag (tag : jsstring) : Handler unit :=
  tags <- rendered tags ;;
  if negb (Array_includes tags tag)
  then setTags (fun prevTags => prevTags ++ [tag])
  else ret tt.

Definition addCollection (collection : Collection.t) : Handler unit :=
  setCollections (fun prevCollections => prevCollections ++ [collection]).

Definition updateCollection (collection : Collection.t) : Handler unit :=
  setCollections (fun prevCollections =>
    map (fun c => if str_eqb (Collection.id c) (Collection.id collection)
                  then collection else c) prevCollections).

Definition deleteCollection (collectionId : jsstring) : Handler unit :=
  setCollections (fun prevCollections =>
    filter (fun c => negb (str_eqb (Collection.id c) collectionId)) prevCollections).

(** *** Category suggestion *)

(** [array.sort(compare)]: the sort of [Array.prototype] is stable; [a] is
    moved behind [b] only when [compare(a, b) > 0]. *)
Fixpoint sort_insert {A} (compare : A -> A -> Q) (x : A) (l : list A) : list A :=
  match l with
  | [] => [x]
  | y :: l' =>
    if Qle_bool (compare x y) 0 then x :: l
    else y :: sort_insert compare x l'
  end.

Fixpoint Array_sort {A} (compare : A -> A -> Q) (l : list A) : list A :=
  match l with
  | [] => []
  | x :: l' => sort_insert compare x (Array_sort compare l')
  end.

(** [suggestions[0] = x] *)
Definition assign_first {A} (x : A) (l : list A) : list A :=
  match l with
  | [] => [x]
  | _ :: l' => x :: l'
  end.

(** The comparator [(a, b) => b.confidence - a.confidence].  The confidences
    are the decimal literals of the source, kept exact; the sign of the
    difference of two of them is the same in double precision. *)
Definition by_confidence_desc (a b : CategorySuggestion) : Q :=
  confidence b - confidence a.

Section Suggestion.

Variable toLowerCase : jsstring -> jsstring.

Definition suggestBookCategory (title author : jsstring) (pseudonym : option jsstring)
  : list CategorySuggestion :=
  let suggestions :=
    [ mkSuggestion (js "Cuisine générale") 0.7;
      mkSuggestion (js "Pâtisserie") 0.5;
      mkSuggestion (js "Gastronomie") 0.4 ] in
  let lowerTitle := toLowerCase title in
  let suggestions :=
    if includes lowerTitle (js "pâtisserie") || includes lowerTitle (js "dessert")
       || includes lowerTitle (js "gâteau")
    then assign_first (mkSuggestion (js "Pâtisserie") 0.9) suggestions
    else if includes lowerTitle (js "végé") || includes lowerTitle (js "vegan")
    then assign_first (mkSuggestion (js "Végétarien") 0.9) suggestions
    else if includes lowerTitle (js "rapide") || includes lowerTitle (js "simple")
    then assign_first (mkSuggestion (js "Cuisine rapide") 0.9) suggestions
    else suggestions in
  Array_sort by_confidence_desc suggestions.

End Suggestion.

(** *** Initial state *)

Definition INITIAL_BOOKS : list Book.t :=
  [ Book.mk (js "1") (js "Simplissime") (js "Jean-François Mallet") None
      (Some (js "Hachette Pratique")) (Some 2015%Z) None (Some (js "Cuisine rapide"))
      (js "2024-01-15T00:00:00.000Z");
    Book.mk (js "2") (js "La Pâtisserie") (js "Christophe Felder") None
      (Some (js "La Martinière")) (Some 2019%Z) None (Some (js "Pâtisserie"))
      (js "2024-02-10T00:00:00.000Z");
    Book.mk (js "3") (js "Veggie") (js "Alice Hart") None
      (Some (js "Marabout")) (Some 2018%Z) None (Some (js "Végétarien"))
      (js "2024-03-05T00:00:00.000Z");
    Book.mk (js "4") (js "Le Grand Livre de la Cuisine") (js "Alain Ducasse") None
      (Some (js "Ducasse Édition")) (Some 2020%Z) None (Some (js "Gastronomie"))
      (js "2024-04-20T00:00:00.000Z") ].

Definition INITIAL_RECIPES : list Recipe.t :=
  [ Recipe.mk (js "1") (js "Poulet rôti aux herbes") (Some (js "1"))
      [js "plat"; js "viande"; js "facile"]
      (js "Excellent ! Ajouter plus de thym la prochaine fois.") true None
      (js "2024-01-20T00:00:00.000Z");
    Recipe.mk (js "2") (js "Tarte au citron meringuée") (Some (js "2"))
      [js "dessert"; js "pâtisserie"; js "agrumes"]
      (js "La meringue doit être bien dorée.") true None
      (js "2024-02-15T00:00:00.000Z");
    Recipe.mk (js "3") (js "Buddha Bowl coloré") (Some (js "3"))
      [js "plat"; js "végétarien"; js "santé"]
      (js "Parfait pour le déjeuner, très frais.") false None
      (js "2024-03-10T00:00:00.000Z");
    Recipe.mk (js "4") (js "Risotto aux champignons") (Some (js "4"))
      [js "plat"; js "italien"; js "végétarien"]
      (js "Remuer constamment pour un résultat crémeux.") true None
      (js "2024-04-25T00:00:00.000Z");
    Recipe.mk (js "5") (js "Crêpes maison") (Some (js "1"))
      [js "dessert"; js "facile"; js "gourmand"]
      (js "Recette familiale testée et approuvée.") false None
      (js "2024-05-01T00:00:00.000Z") ].

Definition INITIAL_TAGS : list jsstring :=
  [ js "plat"; js "dessert"; js "entrée"; js "viande"; js "poisson";
    js "végétarien"; js "pâtisserie"; js "facile"; js "rapide"; js "santé";
    js "gourmand"; js "italien"; js "français"; js "agrumes" ].

Definition INITIAL_COLLECTIONS : list Collection.t :=
  [ Collection.mk (js "1") (js "Mes Favoris") [js "favoris"]
      (js "2024-01-01T00:00:00.000Z");
    Collection.mk (js "2") (js "Repas Rapides") [js "facile"; js "rapide"]
      (js "2024-01-05T00:00:00.000Z") ].

Definition initial : Store :=
  mkStore INITIAL_BOOKS INITIAL_RECIPES INITIAL_TAGS INITIAL_COLLECTIONS.

(** ** Derived queries of the screens *)

(** [o && k(o)] on an optional string: [undefined] and the empty string are
    falsy. *)
Definition and_then (o : option jsstring) (k : jsstring -> bool) : bool :=
  match o with
  | Some s => negb (str_eqb s []) && k s
  | None => false
  end.

(** A non-empty string is truthy. *)
Definition truthy (s : jsstring) : bool := negb (str_eqb s []).

(** The white space and line terminators [String.prototype.trim] removes. *)
Definition is_space (c : N) : bool :=
  ((9 <=? c) && (c <=? 13) || (c =? 32) || (c =? 160) || (c =? 5760)
   || (8192 <=? c) && (c <=? 8202) || (c =? 8232) || (c =? 8233) || (c =? 8239)
   || (c =? 8287) || (c =? 12288) || (c =? 65279))%N.

Fixpoint trimStart (s : jsstring) : jsstring :=
  match s with
  | [] => []
  | c :: s' => if is_space c then trimStart s' else s
  end.

Fixpoint trimEnd (s : jsstring) : jsstring :=
  match s with
  | [] => []
  | c :: s' =>
    match trimEnd s' with
    | [] => if is_space c then [] else [c]
    | t => c :: t
    end
  end.

Definition trim (s : jsstring) : jsstring := trimEnd (trimStart s).

(** [s.trim() || undefined] *)
Definition trim_or_undefined (s : jsstring) : option jsstring :=
  if truthy (trim s) then Some (trim s) else None.

(** [books.find(b => b.id === id)] and its siblings on recipes and
    collections: the first record carrying the id. *)
Definition find_by_id {A} (key : A -> jsstring) (i : jsstring) (l : list A) : option A :=
  find (fun x => str_eqb (key x) i) l.

(** *** [src/utils/formatters.ts] *)

Module formatters.

Definition formatAuthorDisplay (author : jsstring) (pseudonym : option jsstring)
  : jsstring :=
  match pseudonym with
  | Some p =>
    if truthy p && truthy (trim p) then
      if truthy author && truthy (trim author)
      then trim p ++ js " (" ++ trim author ++ js ")"
      else trim p
    else trim author
  | None => trim author
  end.

Definition getAuthorPrimaryName (author : jsstring) (pseudonym : option jsstring)
  : jsstring :=
  match pseudonym with
  | Some p => if truthy p && truthy (trim p) then trim p else trim author
  | None => trim author
  end.

End formatters.

(** *** [src/theme/responsive.ts]

    [SCREEN_WIDTH] is the width the device reports, a finite number; it is
    only compared with the integer breakpoints, which is exact. *)

Module responsive.

Definition Qltb (a b : Q) : bool := negb (Qle_bool b a).

Module breakpoints.
Definition smallPhone : Q := 320.
Definition phone : Q := 375.
Definition largePhone : Q := 414.
Definition tablet : Q := 768.
Definition largeTablet : Q := 1024.
End breakpoints.

Module deviceType.
Definition isSmallPhone (SCREEN_WIDTH : Q) : bool :=
  Qltb SCREEN_WIDTH breakpoints.phone.
Definition isPhone (SCREEN_WIDTH : Q) : bool :=
  Qle_bool breakpoints.phone SCREEN_WIDTH && Qltb SCREEN_WIDTH breakpoints.tablet.
Definition isTablet (SCREEN_WIDTH : Q) : bool :=
  Qle_bool breakpoints.tablet SCREEN_WIDTH && Qltb SCREEN_WIDTH breakpoints.largeTablet.
Definition isLargeTablet (SCREEN_WIDTH : Q) : bool :=
  Qle_bool breakpoints.largeTablet SCREEN_WIDTH.
End deviceType.

Definition getResponsiveValue {T} (SCREEN_WIDTH : Q) (smallValue : T)
  (mediumValue largeValue : option T) : T :=
  match (if deviceType.isTablet SCREEN_WIDTH then largeValue else None) with
  | Some large => large
  | None =>
    match (if deviceType.isPhone SCREEN_WIDTH then mediumValue else None) with
    | Some medium => medium
    | None => smallValue
    end
  end.

End responsive.

Module AppNavigator.

Definition drawerWidth (SCREEN_WIDTH : Q) : Z :=
  responsive.getResponsiveValue SCREEN_WIDTH 240%Z (Some 240%Z)
    (Some (if responsive.deviceType.isLargeTablet SCREEN_WIDTH then 320%Z else 280%Z)).

End AppNavigator.

Module BooksScreen.
Section Search.
Variable toLowerCase : jsstring -> jsstring.

Definition filteredBooks (searchQuery : jsstring) (books : list Book.t) : list Book.t :=
  filter (fun book =>
    includes (toLowerCase (Book.title book)) (toLowerCase searchQuery) ||
    includes (toLowerCase (Book.author book)) (toLowerCase searchQuery) ||
    and_then (Book.pseudonym book)
      (fun pseudonym => includes (toLowerCase pseudonym) (toLowerCase searchQuery)) ||
    and_then (Book.category book)
      (fun category => includes (toLowerCase category) (toLowerCase searchQuery)))
    books.

End Search.

(** Columns of the grid of books. *)
Definition numColumns (SCREEN_WIDTH : Q) : Z :=
  responsive.getResponsiveValue SCREEN_WIDTH 2%Z (Some 2%Z)
    (Some (if responsive.deviceType.isLargeTablet SCREEN_WIDTH then 4%Z else 3%Z)).

End BooksScreen.

Module RecipesScreen.
Section Search.
Variable toLowerCase : jsstring -> jsstring.

Definition filteredRecipes (searchQuery : jsstring) (showFavoritesOnly : bool)
  (recipes : list Recipe.t) : list Recipe.t :=
  filter (fun recipe =>
    let matchesSearch :=
      includes (toLowerCase (Recipe.name recipe)) (toLowerCase searchQuery) ||
      existsb (fun tag => includes (toLowerCase tag) (toLowerCase searchQuery))
        (Recipe.tags recipe) in
    let matchesFavorites := negb showFavoritesOnly || Recipe.isFavorite recipe in
    matchesSearch && matchesFavorites)
    recipes.

End Search.

(** [!bookId]: absent or empty. *)
Definition getBookTitle (books : list Book.t) (bookId : option jsstring) : jsstring :=
  match bookId with
  | None => js "Recette personnelle"
  | Some i =>
    if negb (truthy i) then js "Recette personnelle"
    else match find_by_id Book.id i books with
         | Some book => Book.title book
         | None => js "Livre inconnu"
         end
  end.

End RecipesScreen.

Module CollectionDetailScreen.

Definition filteredRecipes (collection : Collection.t) (recipes : list Recipe.t)
  : list Recipe.t :=
  filter (fun recipe =>
    existsb (fun tag => Array_includes (Collection.tags collection) tag)
      (Recipe.tags recipe))
    recipes.

Definition toggleTag (tag : jsstring) (editedTags : list jsstring) : list jsstring :=
  if Array_includes editedTags tag
  then filter (fun t => negb (str_eqb t tag)) editedTags
  else editedTags ++ [tag].

(** [saveEditing], for the [collection] the screen shows; the result is the
    text of the error alert, if one is raised. *)
Definition saveEditing (collection : Collection.t) (editedName : jsstring)
  (editedTags : list jsstring) : Handler (option jsstring) :=
  if negb (truthy (trim editedName))
  then ret (Some (js "Le nom de la collection est obligatoire"))
  else if (List.length editedTags =? 0)
  then ret (Some (js "Veuillez sélectionner au moins un tag"))
  else
    updateCollection
      (Collection.mk (Collection.id collection) (trim editedName) editedTags
         (Collection.createdAt collection)) ;;
    ret None.

End CollectionDetailScreen.

Module CollectionsScreen.

(** [handleCreateCollection]; [nowId] is [Date.now().toString()] and
    [nowIso] is [new Date().toISOString()] at the call.  The result is the
    text of the error alert, if one is raised. *)
Definition handleCreateCollection (nowId nowIso : jsstring)
  (newCollectionName : jsstring) (selectedTags : list jsstring)
  : Handler (option jsstring) :=
  if negb (truthy (trim newCollectionName))
  then ret (Some (js "Le nom de la collection est obligatoire"))
  else if (List.length selectedTags =? 0)
  then ret (Some (js "Veuillez sélectionner au moins un tag"))
  else
    addCollection (Collection.mk nowId (trim newCollectionName) selectedTags nowIso) ;;
    ret None.

Definition toggleTag (tag : jsstring) (selectedTags : list jsstring) : list jsstring :=
  if Array_includes selectedTags tag
  then filter (fun t => negb (str_eqb t tag)) selectedTags
  else selectedTags ++ [tag].

End CollectionsScreen.

Module HomeScreen.

Definition favoriteRecipes (recipes : list Recipe.t) : list Recipe.t :=
  filter (fun r => Recipe.isFavorite r) recipes.

End HomeScreen.

Module BookDetailScreen.

Definition book (books : list Book.t) (bookId : jsstring) : option Book.t :=
  find_by_id Book.id bookId books.

Definition bookRecipes (recipes : list Recipe.t) (bookId : jsstring) : list Recipe.t :=
  filter (fun r => bookId_is r bookId) recipes.

End BookDetailScreen.

(** [AddRecipeScreen] of [src/screens/BookDetailScreen.tsx]. *)
Module AddRecipeScreen.

Definition filteredTags (toLowerCase : jsstring -> jsstring)
  (availableTags : list jsstring) (tagInput : jsstring) (selectedTags : list jsstring)
  : list jsstring :=
  filter (fun tag =>
    includes (toLowerCase tag) (toLowerCase tagInput) &&
    negb (Array_includes selectedTags tag)) availableTags.

(** The two cells [handleAddTag] writes: [selectedTags] and [tagInput]. *)
Definition handleAddTag (tag : jsstring) (state : list jsstring * jsstring)
  : list jsstring * jsstring :=
  let (selectedTags, tagInput) := state in
  if truthy (trim tag) && negb (Array_includes selectedTags (trim tag))
  then (selectedTags ++ [trim tag], [])
  else (selectedTags, tagInput).

Definition handleRemoveTag (tag : jsstring) (selectedTags : list jsstring)
  : list jsstring :=
  filter (fun t => negb (str_eqb t tag)) selectedTags.

(** [handleSave]; [nowId] and [nowIso] as in [handleCreateCollection].  The
    result is the text of the alert that follows. *)
Definition handleSave (nowId nowIso : jsstring) (name : jsstring)
  (selectedBookId : option jsstring) (notes : jsstring) (selectedTags : list jsstring)
  : Handler jsstring :=
  if negb (truthy (trim name))
  then ret (js "Le nom de la recette est obligatoire")
  else
    addRecipe (Recipe.mk nowId (trim name) selectedBookId selectedTags (trim notes)
                 false None nowIso) ;;
    ret (js "La recette a été ajoutée").

End AddRecipeScreen.

Module RecipeDetailScreen.

Definition recipe (recipes : list Recipe.t) (recipeId : jsstring) : option Recipe.t :=
  find_by_id Recipe.id recipeId recipes.

Definition filteredTagSuggestions (toLowerCase : jsstring -> jsstring)
  (availableTags : list jsstring) (newTagInput : jsstring) (editedTags : list jsstring)
  : list jsstring :=
  filter (fun tag =>
    (0 <? List.length newTagInput) &&
    includes (toLowerCase tag) (toLowerCase newTagInput) &&
    negb (Array_includes editedTags tag)) availableTags.

(** [saveEditing], for the [recipe] the screen shows. *)
Definition saveEditing (recipe : Recipe.t) (editedName editedNotes : jsstring)
  (editedTags : list jsstring) (editedRecipeImage : option jsstring)
  : Handler (option jsstring) :=
  if negb (truthy (trim editedName))
  then ret (Some (js "Le nom de la recette est obligatoire"))
  else
    updateRecipe
      (Recipe.mk (Recipe.id recipe) (trim editedName) (Recipe.bookId recipe) editedTags
         (trim editedNotes) (Recipe.isFavorite recipe) editedRecipeImage
         (Recipe.createdAt recipe)) ;;
    ret None.

Definition handleAddTag (tag : jsstring) (state : list jsstring * jsstring)
  : list jsstring * jsstring :=
  let (editedTags, newTagInput) := state in
  if truthy (trim tag) && negb (Array_includes editedTags (trim tag))
  then (editedTags ++ [trim tag], [])
  else (editedTags, newTagInput).

Definition handleRemoveTag (tag : jsstring) (editedTags : list jsstring)
  : list jsstring :=
  filter (fun t => negb (str_eqb t tag)) editedTags.

Definition quickAddTag (recipe : Recipe.t) (tag : jsstring) : Handler unit :=
  if negb (Array_includes (Recipe.tags recipe) tag)
  then
    updateRecipe
      (Recipe.mk (Recipe.id recipe) (Recipe.name recipe) (Recipe.bookId recipe)
         (Recipe.tags recipe ++ [tag]) (Recipe.notes recipe) (Recipe.isFavorite recipe)
         (Recipe.recipeImage recipe) (Recipe.createdAt recipe))
  else ret tt.

Definition handleAddCustomTag (recipe : Recipe.t) (customTagInput : jsstring)
  : Handler (option jsstring) :=
  let trimmedTag := trim customTagInput in
  if negb (truthy trimmedTag)
  then ret (Some (js "Le nom du tag ne peut pas être vide"))
  else if Array_includes (Recipe.tags recipe) trimmedTag
  then ret (Some (js "Ce tag est déjà ajouté à la recette"))
  else quickAddTag recipe trimmedTag ;; ret None.

End RecipeDetailScreen.

Module AddBookScreen.

Definition getSuggestions (toLowerCase : jsstring -> jsstring)
  (title author pseudonym : jsstring) : list CategorySuggestion :=
  if truthy (trim title) && truthy (trim author)
  then suggestBookCategory toLowerCase title author (Some pseudonym)
  else [].

End AddBookScreen.

(** ** Notions the properties are stated with *)

(** [query] is a substring of [s] once both are lower-cased. *)
Definition ci_substring (toLowerCase : jsstring -> jsstring) (query s : jsstring) : Prop :=
  exists pre post, toLowerCase s = pre ++ toLowerCase query ++ post.

(** The recipe carries at least one tag of the collection. *)
Definition shares_tag (r : Recipe.t) (c : Collection.t) : Prop :=
  exists t, In t (Recipe.tags r) /\ In t (Collection.tags c).

(** Number of recipes of [s] attached to the book [bookId]. *)
Definition attached (bookId : jsstring) (s : Store) : nat :=
  List.length (filter (fun r => bookId_is r bookId) (recipes s)).

(** [r'] is [r] up to its [bookId]. *)
Definition same_but_bookId (r r' : Recipe.t) : Prop :=
  Recipe.id r' = Recipe.id r /\
  Recipe.name r' = Recipe.name r /\
  Recipe.tags r' = Recipe.tags r /\
  Recipe.notes r' = Recipe.notes r /\
  Recipe.isFavorite r' = Recipe.isFavorite r /\
  Recipe.recipeImage r' = Recipe.recipeImage r /\
  Recipe.createdAt r' = Recipe.createdAt r.

(** No record of the kind carries the id [i]; no recipe points to the book
    [i]. *)
Definition no_book (i : jsstring) (s : Store) : Prop :=
  forall b, In b (books s) -> Book.id b <> i.
Definition no_recipe (i : jsstring) (s : Store) : Prop :=
  forall r, In r (recipes s) -> Recipe.id r <> i.
Definition no_collection (i : jsstring) (s : Store) : Prop :=
  forall c, In c (collections s) -> Collection.id c <> i.
Definition unreferenced (i : jsstring) (s : Store) : Prop :=
  forall r, In r (recipes s) -> Recipe.bookId r <> Some i.

(** Ids are unique within each kind. *)
Definition unique_ids (s : Store) : Prop :=
  NoDup (map Book.id (books s)) /\
  NoDup (map Recipe.id (recipes s)) /\
  NoDup (map Collection.id (collections s)).

(** A sequence of add operations, each followed by a render. *)
Inductive AddOp :=
| AddBook (book : Book.t)
| AddRecipe (recipe : Recipe.t)
| AddCollection (collection : Collection.t).

Definition perform (op : AddOp) : Handler unit :=
  match op with
  | AddBook book => addBook book
  | AddRecipe recipe => addRecipe recipe
  | AddCollection collection => addCollection collection
  end.

Fixpoint perform_all (ops : list AddOp) (s : Store) : Store :=
  match ops with
  | [] => s
  | op :: ops' => perform_all ops' (after (perform op) s)
  end.

(** The record an operation adds carries an id that no record of its kind in
    [s] has. *)
Definition fresh (op : AddOp) (s : Store) : bool :=
  match op with
  | AddBook book => negb (Array_includes (map Book.id (books s)) (Book.id book))
  | AddRecipe recipe => negb (Array_includes (map Recipe.id (recipes s)) (Recipe.id recipe))
  | AddCollection collection =>
    negb (Array_includes (map Collection.id (collections s)) (Collection.id collection))
  end.

Fixpoint all_fresh (ops : list AddOp) (s : Store) : bool :=
  match ops with
  | [] => true
  | op :: ops' => fresh op s && all_fresh ops' (after (perform op) s)
  end.

(** The list the specification describes for a lower-cased title: the
    baseline, with its first slot replaced by the first keyword group the
    title contains. *)
Definition contains_any (lowerTitle : jsstring) (keywords : list jsstring) : bool :=
  existsb (fun k => includes lowerTitle k) keywords.

Definition expected_suggestions (lowerTitle : jsstring) : list CategorySuggestion :=
  (if contains_any lowerTitle [js "pâtisserie"; js "dessert"; js "gâteau"]
   then mkSuggestion (js "Pâtisserie") 0.9
   else if contains_any lowerTitle [js "végé"; js "vegan"]
   then mkSuggestion (js "Végétarien") 0.9
   else if contains_any lowerTitle [js "rapide"; js "simple"]
   then mkSuggestion (js "Cuisine rapide") 0.9
   else mkSuggestion (js "Cuisine générale") 0.7)
  :: [ mkSuggestion (js "Pâtisserie") 0.5; mkSuggestion (js "Gastronomie") 0.4 ].

(** [a] may stand before [b] in a list sorted by descending confidence. *)
Definition confidence_ge (a b : CategorySuggestion) : Prop :=
  (confidence b <= confidence a)%Q.

(** The suggestions of [l] whose confidence is [c], in the order of [l]. *)
Definition with_confidence (c : Q) (l : list CategorySuggestion)
  : list CategorySuggestion :=
  filter (fun x => Qeq_bool (confidence x) c) l.

(** Every reference from a recipe to a book finds a book. *)
Definition resolved (s : Store) : Prop :=
  forall r i, In r (recipes s) -> Recipe.bookId r = Some i ->
    find_by_id Book.id i (books s) <> None.

(** A recipe without book. *)
Definition personal (r : Recipe.t) : bool :=
  match Recipe.bookId r with
  | Some _ => false
  | None => true
  end.

(** A name that is not empty and carries no white space around it. *)
Definition proper_name (name : jsstring) : Prop :=
  name <> [] /\ trim name = name.

Definition well_formed_collection (c : Collection.t) : Prop :=
  proper_name (Collection.name c) /\ Collection.tags c <> [].

(** The tags a recipe brings that the rendered registry does not hold. *)
Definition unseen_tags (s : Store) (recipe : Recipe.t) : list jsstring :=
  filter (fun tag => negb (Array_includes (tags s) tag)) (Recipe.tags recipe).

(** * Properties *)

(** ** Strings and arrays *)

Lemma str_eqb_eq (a b : jsstring) : str_eqb a b = true <-> a = b.
Proof.
  revert b; induction a as [|x a IH]; intros [|y b]; simpl; split;
    try congruence; try reflexivity.
  - rewrite andb_true_iff, N.eqb_eq, IH. intros [-> ->]; reflexivity.
  - intros H; injection H as -> ->.
    rewrite N.eqb_refl; simpl; apply IH; reflexivity.
Qed.

Lemma str_eqb_refl (a : jsstring) : str_eqb a a = true.
Proof. apply str_eqb_eq; reflexivity. Qed.

Lemma str_eqb_neq (a b : jsstring) : str_eqb a b = false <-> a <> b.
Proof.
  rewrite <- str_eqb_eq. destruct (str_eqb a b); split; congruence.
Qed.

Lemma startsWith_spec (s p : jsstring) :
  startsWith s p = true <-> exists post, s = p ++ post.
Proof.
  revert s; induction p as [|x p IH]; intros s; simpl.
  - split; [intros _; exists s; reflexivity | destruct s; reflexivity].
  - destruct s as [|y s].
    + simpl. split; [discriminate | intros [post H]; discriminate].
    + simpl. rewrite andb_true_iff, N.eqb_eq, IH. split.
      * intros [-> [post ->]]. exists post; reflexivity.
      * intros [post H]; injection H as -> ->. split; [reflexivity | eauto].
Qed.

(** [includes] is the substring relation. *)
Lemma includes_spec (s q : jsstring) :
  includes s q = true <-> exists pre post, s = pre ++ q ++ post.
Proof.
  induction s as [|y s IH].
  - change (includes [] q) with (startsWith [] q || false).
    rewrite orb_false_r, startsWith_spec. split.
    + intros [post H]; exists [], post; exact H.
    + intros [pre [post H]]. destruct pre; [exists post; exact H | discriminate].
  - change (includes (y :: s) q)
      with (startsWith (y :: s) q || includes s q).
    rewrite orb_true_iff, startsWith_spec, IH. split.
    + intros [[post H] | [pre [post H]]].
      * exists [], post; exact H.
      * exists (y :: pre), post; simpl; rewrite H; reflexivity.
    + intros [[|z pre] [post H]].
      * left; exists post; exact H.
      * right; injection H as _ H. exists pre, post; exact H.
Qed.

Lemma includes_empty (s : jsstring) : includes s [] = true.
Proof. destruct s; reflexivity. Qed.

Lemma empty_includes (q : jsstring) : includes [] q = true -> q = [].
Proof. destruct q; [reflexivity | discriminate]. Qed.

Lemma Array_includes_In (l : list jsstring) (x : jsstring) :
  Array_includes l x = true <-> In x l.
Proof.
  unfold Array_includes. rewrite existsb_exists. split.
  - intros [y [Hy E]]. apply str_eqb_eq in E; subst; exact Hy.
  - intros H. exists x. split; [exact H | apply str_eqb_refl].
Qed.

(** ** What a render leaves of each operation *)

Lemma after_setBooks (u : list Book.t -> list Book.t) (s : Store) :
  after (setBooks u) s = mkStore (u (books s)) (recipes s) (tags s) (collections s).
Proof. reflexivity. Qed.

Lemma after_setRecipes_pure (f : list Recipe.t -> list Recipe.t) (s : Store) :
  after (setRecipes (pure f)) s
  = mkStore (books s) (f (recipes s)) (tags s) (collections s).
Proof. reflexivity. Qed.

Lemma after_setCollections (u : list Collection.t -> list Collection.t) (s : Store) :
  after (setCollections u) s
  = mkStore (books s) (recipes s) (tags s) (u (collections s)).
Proof. reflexivity. Qed.

Lemma after_recipe_update (f : list Recipe.t -> list Recipe.t) (recipe : Recipe.t)
  (s : Store) :
  after (setRecipes (pure f) ;; register_tags recipe) s
  = mkStore (books s) (f (recipes s)) (tags s ++ unseen_tags s recipe) (collections s).
Proof.
  unfold after, rendered_after, register_tags, unseen_tags. cbn.
  destruct (filter _ (Recipe.tags recipe)) as [|t ts]; cbn.
  - rewrite app_nil_r. reflexivity.
  - reflexivity.
Qed.

(** The updater of [deleteBook], run from a counter at [n]. *)
Lemma detach_run (bookId : jsstring) (l : list Recipe.t) (n : nat) :
  Array_map (fun r =>
    if bookId_is r bookId then incr ;; ret (without_book r) else ret r) l n
  = (map (fun r => if bookId_is r bookId then without_book r else r) l,
     n + List.length (filter (fun r => bookId_is r bookId) l)).
Proof.
  revert n; induction l as [|r l IH]; intros n; cbn.
  - rewrite Nat.add_0_r; reflexivity.
  - destruct (bookId_is r bookId); cbn; rewrite IH; cbn.
    + f_equal. lia.
    + reflexivity.
Qed.

Lemma rendered_after_deleteBook (bookId : jsstring) (s : Store) :
  rendered_after (deleteBook bookId) s
  = (mkStore
       (filter (fun b => negb (str_eqb (Book.id b) bookId)) (books s))
       (map (fun r => if bookId_is r bookId then without_book r else r) (recipes s))
       (tags s) (collections s),
     List.length (filter (fun r => bookId_is r bookId) (recipes s))).
Proof.
  unfold rendered_after, deleteBook. cbn. rewrite detach_run. reflexivity.
Qed.

Lemma store_eta (s : Store) :
  mkStore (books s) (recipes s) (tags s) (collections s) = s.
Proof. destruct s; reflexivity. Qed.

Lemma map_replace_absent {A} (key : A -> jsstring) (i : jsstring) (f : A -> A)
  (l : list A) :
  (forall x, In x l -> key x <> i) ->
  map (fun x => if str_eqb (key x) i then f x else x) l = l.
Proof.
  induction l as [|x l IH]; intros H; simpl.
  - reflexivity.
  - rewrite IH by (intros y Hy; apply H; right; exact Hy).
    destruct (str_eqb (key x) i) eqn:E.
    + apply str_eqb_eq in E. exfalso. apply (H x); [left; reflexivity | exact E].
    + reflexivity.
Qed.

Lemma filter_remove_absent {A} (key : A -> jsstring) (i : jsstring) (l : list A) :
  (forall x, In x l -> key x <> i) ->
  filter (fun x => negb (str_eqb (key x) i)) l = l.
Proof.
  induction l as [|x l IH]; intros H; simpl.
  - reflexivity.
  - rewrite IH by (intros y Hy; apply H; right; exact Hy).
    destruct (str_eqb (key x) i) eqn:E.
    + apply str_eqb_eq in E. exfalso. apply (H x); [left; reflexivity | exact E].
    + reflexivity.
Qed.

Lemma bookId_is_true (r : Recipe.t) (i : jsstring) :
  bookId_is r i = true <-> Recipe.bookId r = Some i.
Proof.
  unfold bookId_is. destruct (Recipe.bookId r) as [b|].
  - rewrite str_eqb_eq. split; congruence.
  - split; discriminate.
Qed.

Lemma detach_unreferenced (i : jsstring) (l : list Recipe.t) :
  (forall r, In r l -> Recipe.bookId r <> Some i) ->
  map (fun r => if bookId_is r i then without_book r else r) l = l.
Proof.
  induction l as [|r l IH]; intros H; simpl.
  - reflexivity.
  - rewrite IH by (intros y Hy; apply H; right; exact Hy).
    destruct (bookId_is r i) eqn:E.
    + apply bookId_is_true in E. exfalso. apply (H r); [left; reflexivity | exact E].
    + reflexivity.
Qed.

Lemma unseen_tags_nil (s : Store) (recipe : Recipe.t) :
  incl (Recipe.tags recipe) (tags s) -> unseen_tags s recipe = [].
Proof.
  unfold unseen_tags. induction (Recipe.tags recipe) as [|t ts IH]; intros H; simpl.
  - reflexivity.
  - assert (Ht : Array_includes (tags s) t = true)
      by (apply Array_includes_In, H; left; reflexivity).
    rewrite Ht; simpl. apply IH. intros x Hx; apply H; right; exact Hx.
Qed.

Lemma In_unseen_tags (s : Store) (recipe : Recipe.t) (t : jsstring) :
  In t (unseen_tags s recipe) <-> In t (Recipe.tags recipe) /\ ~ In t (tags s).
Proof.
  unfold unseen_tags. rewrite filter_In, negb_true_iff.
  rewrite <- (Array_includes_In (tags s) t).
  destruct (Array_includes (tags s) t); intuition congruence.
Qed.

(** Boolean checks for the hypotheses above, to discharge them on a given
    store by computation. *)
Lemma no_book_check (i : jsstring) (s : Store) :
  forallb (fun b => negb (str_eqb (Book.id b) i)) (books s) = true -> no_book i s.
Proof.
  rewrite forallb_forall. intros H b Hb. apply str_eqb_neq, negb_true_iff, H, Hb.
Qed.

Lemma no_recipe_check (i : jsstring) (s : Store) :
  forallb (fun r => negb (str_eqb (Recipe.id r) i)) (recipes s) = true -> no_recipe i s.
Proof.
  rewrite forallb_forall. intros H r Hr. apply str_eqb_neq, negb_true_iff, H, Hr.
Qed.

Lemma no_collection_check (i : jsstring) (s : Store) :
  forallb (fun c => negb (str_eqb (Collection.id c) i)) (collections s) = true ->
  no_collection i s.
Proof.
  rewrite forallb_forall. intros H c Hc. apply str_eqb_neq, negb_true_iff, H, Hc.
Qed.

Lemma unreferenced_check (i : jsstring) (s : Store) :
  forallb (fun r => negb (bookId_is r i)) (recipes s) = true -> unreferenced i s.
Proof.
  rewrite forallb_forall. intros H r Hr E.
  apply bookId_is_true in E. specialize (H r Hr). rewrite E in H. discriminate.
Qed.

(** ** deleteBook *)

Lemma after_deleteBook (bookId : jsstring) (s : Store) :
  after (deleteBook bookId) s
  = mkStore
      (filter (fun b => negb (str_eqb (Book.id b) bookId)) (books s))
      (map (fun r => if bookId_is r bookId then without_book r else r) (recipes s))
      (tags s) (collections s).
Proof. unfold after. rewrite rendered_after_deleteBook. reflexivity. Qed.

Lemma detached_not_attached (bookId : jsstring) (l : list Recipe.t) (r : Recipe.t) :
  In r (map (fun r => if bookId_is r bookId then without_book r else r) l) ->
  Recipe.bookId r <> Some bookId.
Proof.
  rewrite in_map_iff. intros [r0 [E _]].
  destruct (bookId_is r0 bookId) eqn:B; subst r.
  - discriminate.
  - intros H. apply bookId_is_true in H. congruence.
Qed.

(** C1.  The state part of the cascade holds: once the provider has rendered,
    the book is gone from the list and no recipe points to it, and the
    updater has by then counted the [attached] recipes in [detachedCount].
    The value [deleteBook] returns is however read before that updater runs:
    it is 0 for every store, also when recipes were attached, as for the book
    ["1"] of the initial state, which two recipes reference. *)
Theorem deleteBook_returns_before_detaching :
  (forall bookId s, returned (deleteBook bookId) s = 0) /\
  (forall bookId s,
     snd (rendered_after (deleteBook bookId) s) = attached bookId s) /\
  (forall B s, ~ In B (books (after (deleteBook (Book.id B)) s))) /\
  (forall bookId s r,
     In r (recipes (after (deleteBook bookId) s)) -> Recipe.bookId r <> Some bookId) /\
  attached (js "1") initial = 2 /\
  returned (deleteBook (js "1")) initial = 0.
Proof.
  split; [reflexivity|].
  split; [intros; rewrite rendered_after_deleteBook; reflexivity|].
  split.
  { intros B s. rewrite after_deleteBook; simpl.
    rewrite filter_In, str_eqb_refl. intros [_ H]; discriminate. }
  split.
  { intros bookId s r. rewrite after_deleteBook; simpl.
    apply detached_not_attached. }
  split; reflexivity.
Qed.

(** C10.  [deleteBook] leaves the tag registry and the collections as they
    were; the recipes keep their order and number, each one keeps every field
    but [bookId], and a recipe whose [bookId] is not the deleted id is the
    same record as before. *)
Theorem deleteBook_frame (bookId : jsstring) (s : Store) :
  tags (after (deleteBook bookId) s) = tags s /\
  collections (after (deleteBook bookId) s) = collections s /\
  Forall2 (fun r r' =>
             same_but_bookId r r' /\ (Recipe.bookId r <> Some bookId -> r' = r))
    (recipes s) (recipes (after (deleteBook bookId) s)).
Proof.
  rewrite after_deleteBook; simpl.
  split; [reflexivity|]. split; [reflexivity|].
  induction (recipes s) as [|r l IH]; simpl; constructor; [|exact IH].
  destruct (bookId_is r bookId) eqn:B.
  - split.
    + unfold same_but_bookId; simpl. repeat split.
    + intros H. exfalso. apply H, bookId_is_true, B.
  - split; [unfold same_but_bookId; repeat split | reflexivity].
Qed.

(** ** toggleFavorite *)

Lemma flip_favorite_twice (r : Recipe.t) : flip_favorite (flip_favorite r) = r.
Proof. destruct r; unfold flip_favorite; simpl. rewrite negb_involutive. reflexivity. Qed.

Lemma toggle_map_twice (recipeId : jsstring) (l : list Recipe.t) :
  map (fun r => if str_eqb (Recipe.id r) recipeId then flip_favorite r else r)
    (map (fun r => if str_eqb (Recipe.id r) recipeId then flip_favorite r else r) l)
  = l.
Proof.
  induction l as [|r l IH]; simpl; [reflexivity|].
  rewrite IH. f_equal.
  destruct (str_eqb (Recipe.id r) recipeId) eqn:E.
  - simpl. rewrite E. apply flip_favorite_twice.
  - rewrite E. reflexivity.
Qed.

Lemma after_toggleFavorite (recipeId : jsstring) (s : Store) :
  after (toggleFavorite recipeId) s
  = mkStore (books s)
      (map (fun r => if str_eqb (Recipe.id r) recipeId then flip_favorite r else r)
         (recipes s))
      (tags s) (collections s).
Proof. reflexivity. Qed.

(** C8.  Two calls of [toggleFavorite] with the same id bring the store, and
    with it the recipe list, back to what it was: with a render between the
    two calls, and also when both updaters are queued before one render.  One
    call flips [isFavorite] on the recipes carrying the id and keeps the
    others; it changes nothing when no recipe carries the id. *)
Theorem toggleFavorite_twice (recipeId : jsstring) (s : Store) :
  after (toggleFavorite recipeId) (after (toggleFavorite recipeId) s) = s /\
  after (toggleFavorite recipeId ;; toggleFavorite recipeId) s = s /\
  Forall2 (fun r r' =>
             r' = (if str_eqb (Recipe.id r) recipeId then flip_favorite r else r))
    (recipes s) (recipes (after (toggleFavorite recipeId) s)) /\
  (no_recipe recipeId s -> after (toggleFavorite recipeId) s = s).
Proof.
  split; [|split; [|split]].
  - rewrite !after_toggleFavorite; simpl. rewrite toggle_map_twice. apply store_eta.
  - unfold after, rendered_after; cbn. unfold pure; cbn.
    rewrite toggle_map_twice. apply store_eta.
  - rewrite after_toggleFavorite; simpl.
    induction (recipes s); simpl; constructor; auto.
  - intros H. rewrite after_toggleFavorite.
    rewrite (@map_replace_absent _ Recipe.id recipeId flip_favorite _ H).
    apply store_eta.
Qed.

(** ** The tag registry *)

Lemma after_addRecipe (recipe : Recipe.t) (s : Store) :
  after (addRecipe recipe) s
  = mkStore (books s) (recipes s ++ [recipe]) (tags s ++ unseen_tags s recipe)
      (collections s).
Proof. unfold addRecipe. rewrite after_recipe_update. reflexivity. Qed.

Lemma after_updateRecipe (recipe : Recipe.t) (s : Store) :
  after (updateRecipe recipe) s
  = mkStore (books s)
      (map (fun r => if str_eqb (Recipe.id r) (Recipe.id recipe) then recipe else r)
         (recipes s))
      (tags s ++ unseen_tags s recipe) (collections s).
Proof. unfold updateRecipe. rewrite after_recipe_update. reflexivity. Qed.

Lemma registry_covers (recipe : Recipe.t) (s : Store) :
  incl (tags s) (tags s ++ unseen_tags s recipe) /\
  incl (Recipe.tags recipe) (tags s ++ unseen_tags s recipe).
Proof.
  split.
  - apply incl_appl, incl_refl.
  - intros t Ht. apply in_or_app.
    destruct (Array_includes (tags s) t) eqn:E.
    + left. apply Array_includes_In, E.
    + right. apply In_unseen_tags. split; [exact Ht|].
      rewrite <- Array_includes_In, E. discriminate.
Qed.

(** C4.  After [addRecipe] and after [updateRecipe] the registry is the
    registry of before followed by the tags of the recipe it did not hold:
    it contains every tag it held and every tag of the recipe. *)
Theorem tag_registry_grows (recipe : Recipe.t) (s : Store) :
  (tags (after (addRecipe recipe) s) = tags s ++ unseen_tags s recipe /\
   incl (tags s) (tags (after (addRecipe recipe) s)) /\
   incl (Recipe.tags recipe) (tags (after (addRecipe recipe) s))) /\
  (tags (after (updateRecipe recipe) s) = tags s ++ unseen_tags s recipe /\
   incl (tags s) (tags (after (updateRecipe recipe) s)) /\
   incl (Recipe.tags recipe) (tags (after (updateRecipe recipe) s))).
Proof.
  rewrite after_addRecipe, after_updateRecipe; simpl.
  pose proof (registry_covers recipe s) as [H1 H2].
  repeat split; assumption.
Qed.

(** ** Ids that match no record *)

Lemma after_updateBook (book : Book.t) (s : Store) :
  after (updateBook book) s
  = mkStore
      (map (fun b => if str_eqb (Book.id b) (Book.id book) then book else b) (books s))
      (recipes s) (tags s) (collections s).
Proof. reflexivity. Qed.

Lemma after_deleteRecipe (recipeId : jsstring) (s : Store) :
  after (deleteRecipe recipeId) s
  = mkStore (books s)
      (filter (fun r => negb (str_eqb (Recipe.id r) recipeId)) (recipes s))
      (tags s) (collections s).
Proof. reflexivity. Qed.

Lemma after_updateCollection (collection : Collection.t) (s : Store) :
  after (updateCollection collection) s
  = mkStore (books s) (recipes s) (tags s)
      (map (fun c => if str_eqb (Collection.id c) (Collection.id collection)
                     then collection else c) (collections s)).
Proof. reflexivity. Qed.

Lemma after_deleteCollection (collectionId : jsstring) (s : Store) :
  after (deleteCollection collectionId) s
  = mkStore (books s) (recipes s) (tags s)
      (filter (fun c => negb (str_eqb (Collection.id c) collectionId)) (collections s)).
Proof. reflexivity. Qed.

(** C2, as the code has it.  With an id that no record of the targeted kind
    carries, [updateBook], [deleteRecipe], [toggleFavorite],
    [updateCollection] and [deleteCollection] leave the whole store as it
    was.  [updateRecipe] leaves books, recipes and collections as they were
    and still appends the unseen tags of its argument to the registry, so it
    leaves the store unchanged when the registry holds all of them.
    [deleteBook] leaves the store unchanged when, besides, no recipe points
    to the id. *)
Theorem not_found_leaves_store (i : jsstring) (s : Store) :
  (no_book i s ->
     (forall book, Book.id book = i -> after (updateBook book) s = s) /\
     (unreferenced i s -> after (deleteBook i) s = s)) /\
  (no_recipe i s ->
     (forall recipe, Recipe.id recipe = i ->
        after (updateRecipe recipe) s
        = mkStore (books s) (recipes s) (tags s ++ unseen_tags s recipe)
            (collections s) /\
        (incl (Recipe.tags recipe) (tags s) -> after (updateRecipe recipe) s = s)) /\
     after (deleteRecipe i) s = s /\
     after (toggleFavorite i) s = s) /\
  (no_collection i s ->
     (forall collection, Collection.id collection = i ->
        after (updateCollection collection) s = s) /\
     after (deleteCollection i) s = s).
Proof.
  split; [|split].
  - intros Hb. split.
    + intros book <-. rewrite after_updateBook.
      rewrite (@map_replace_absent _ Book.id (Book.id book) (fun _ => book) _ Hb).
      apply store_eta.
    + intros Hr. rewrite after_deleteBook.
      rewrite (@filter_remove_absent _ Book.id i _ Hb).
      rewrite (@detach_unreferenced i _ Hr). apply store_eta.
  - intros Hr. split; [|split].
    + intros recipe <-. rewrite after_updateRecipe.
      rewrite (@map_replace_absent _ Recipe.id (Recipe.id recipe) (fun _ => recipe) _ Hr).
      split; [reflexivity|].
      intros Hsub. rewrite (@unseen_tags_nil s recipe Hsub), app_nil_r.
      apply store_eta.
    + rewrite after_deleteRecipe.
      rewrite (@filter_remove_absent _ Recipe.id i _ Hr). apply store_eta.
    + rewrite after_toggleFavorite.
      rewrite (@map_replace_absent _ Recipe.id i flip_favorite _ Hr). apply store_eta.
  - intros Hc. split.
    + intros collection <-. rewrite after_updateCollection.
      rewrite (@map_replace_absent _ Collection.id (Collection.id collection)
                 (fun _ => collection) _ Hc).
      apply store_eta.
    + rewrite after_deleteCollection.
      rewrite (@filter_remove_absent _ Collection.id i _ Hc). apply store_eta.
Qed.

(** The theorem at the initial state and the id ["99"], which no book, recipe
    or collection carries and no recipe points to. *)
Lemma not_found_leaves_store_initial :
  after (deleteBook (js "99")) initial = initial /\
  after (deleteRecipe (js "99")) initial = initial /\
  after (toggleFavorite (js "99")) initial = initial /\
  after (deleteCollection (js "99")) initial = initial.
Proof.
  destruct (not_found_leaves_store (js "99") initial) as [Hb [Hr Hc]].
  destruct (Hb (@no_book_check (js "99") initial eq_refl)) as [_ Hdel].
  destruct (Hr (@no_recipe_check (js "99") initial eq_refl)) as [_ [Hdr Htg]].
  destruct (Hc (@no_collection_check (js "99") initial eq_refl)) as [_ Hdc].
  split; [apply Hdel, unreferenced_check; reflexivity|].
  split; [exact Hdr|]. split; [exact Htg | exact Hdc].
Defined.

(** C2 as stated fails.  No recipe of the initial state has the id ["99"],
    and [updateRecipe] with such a recipe still changes the store: its tag
    ["hiver"] enters the registry.  And when a recipe points to a book id
    that no book carries, [deleteBook] with that id detaches it. *)
Lemma not_found_changes_store :
  (no_recipe (js "99") initial /\
   after (updateRecipe
            (Recipe.mk (js "99") (js "Soupe") None [js "hiver"] (js "") false None
               (js "2024-06-01T00:00:00.000Z"))) initial
   <> initial) /\
  (no_book (js "9") (mkStore INITIAL_BOOKS
      [Recipe.mk (js "6") (js "Soupe") (Some (js "9")) [js "plat"] (js "") false None
         (js "2024-06-01T00:00:00.000Z")] INITIAL_TAGS INITIAL_COLLECTIONS) /\
   after (deleteBook (js "9")) (mkStore INITIAL_BOOKS
      [Recipe.mk (js "6") (js "Soupe") (Some (js "9")) [js "plat"] (js "") false None
         (js "2024-06-01T00:00:00.000Z")] INITIAL_TAGS INITIAL_COLLECTIONS)
   <> mkStore INITIAL_BOOKS
      [Recipe.mk (js "6") (js "Soupe") (Some (js "9")) [js "plat"] (js "") false None
         (js "2024-06-01T00:00:00.000Z")] INITIAL_TAGS INITIAL_COLLECTIONS).
Proof.
  split; split.
  - apply no_recipe_check; reflexivity.
  - intros H. apply (f_equal (fun s => List.length (tags s))) in H.
    vm_compute in H. discriminate.
  - apply no_book_check; reflexivity.
  - intros H. apply (f_equal (fun s => map Recipe.bookId (recipes s))) in H.
    vm_compute in H. discriminate.
Qed.

(** ** Unique ids *)

Lemma NoDup_snoc {A} (l : list A) (x : A) :
  NoDup l -> ~ In x l -> NoDup (l ++ [x]).
Proof.
  intros Hl Hx. apply (Permutation_NoDup (Permutation_cons_append l x)).
  constructor; assumption.
Qed.

Lemma NoDup_ids_snoc {A} (key : A -> jsstring) (l : list A) (x : A) :
  NoDup (map key l) ->
  Array_includes (map key l) (key x) = false ->
  NoDup (map key (l ++ [x])).
Proof.
  intros Hl Hx. rewrite map_app; simpl. apply NoDup_snoc; [exact Hl|].
  rewrite <- Array_includes_In, Hx. discriminate.
Qed.

Lemma unique_ids_add (op : AddOp) (s : Store) :
  unique_ids s -> fresh op s = true -> unique_ids (after (perform op) s).
Proof.
  intros (Hb & Hr & Hc) Hf. destruct op as [book | recipe | collection];
    simpl in Hf; apply negb_true_iff in Hf; simpl perform.
  - unfold addBook; rewrite after_setBooks.
    repeat split; simpl; auto using NoDup_ids_snoc.
  - rewrite after_addRecipe.
    repeat split; simpl; auto using NoDup_ids_snoc.
  - unfold addCollection; rewrite after_setCollections.
    repeat split; simpl; auto using NoDup_ids_snoc.
Qed.

Lemma unique_ids_perform_all (ops : list AddOp) (s : Store) :
  unique_ids s -> all_fresh ops s = true -> unique_ids (perform_all ops s).
Proof.
  revert s; induction ops as [|op ops IH]; intros s Hs Hf; simpl in *.
  - exact Hs.
  - apply andb_true_iff in Hf as [Hop Hrest].
    apply IH; [apply unique_ids_add; assumption | exact Hrest].
Qed.

Lemma unique_ids_initial : unique_ids initial.
Proof.
  unfold unique_ids, initial; simpl.
  repeat split; repeat constructor; simpl; intuition discriminate.
Qed.

(** C9, as the code has it.  The store keeps whatever id it is given, so ids
    stay unique along a sequence of add operations from the initial state
    when each added record carries an id that no record of its kind in the
    store has at that point. *)
Theorem fresh_adds_keep_ids_unique (ops : list AddOp) :
  all_fresh ops initial = true -> unique_ids (perform_all ops initial).
Proof.
  intros Hf. apply unique_ids_perform_all; [apply unique_ids_initial | exact Hf].
Qed.

(** The theorem on three adds with the ids ["5"], ["6"] and ["3"]. *)
Lemma fresh_adds_keep_ids_unique_example :
  unique_ids (perform_all
    [ AddBook (Book.mk (js "5") (js "Tartes") (js "Eric Kayser") None None None None
         None (js "2024-06-01T00:00:00.000Z"));
      AddRecipe (Recipe.mk (js "6") (js "Soupe") (Some (js "5")) [js "hiver"] (js "")
         false None (js "2024-06-01T00:00:00.000Z"));
      AddCollection (Collection.mk (js "3") (js "Hiver") [js "hiver"]
         (js "2024-06-01T00:00:00.000Z")) ]
    initial).
Proof.
  apply (fresh_adds_keep_ids_unique
    [ AddBook (Book.mk (js "5") (js "Tartes") (js "Eric Kayser") None None None None
         None (js "2024-06-01T00:00:00.000Z"));
      AddRecipe (Recipe.mk (js "6") (js "Soupe") (Some (js "5")) [js "hiver"] (js "")
         false None (js "2024-06-01T00:00:00.000Z"));
      AddCollection (Collection.mk (js "3") (js "Hiver") [js "hiver"]
         (js "2024-06-01T00:00:00.000Z")) ]).
  reflexivity.
Defined.

(** C9 as stated fails: [addBook] with a book whose id is ["1"] leaves two
    different books with the id ["1"] in the store. *)
Lemma add_with_used_id :
  exists b1 b2,
    In b1 (books (perform_all
      [AddBook (Book.mk (js "1") (js "Tartes") (js "Eric Kayser") None None None None
         None (js "2024-06-01T00:00:00.000Z"))] initial)) /\
    In b2 (books (perform_all
      [AddBook (Book.mk (js "1") (js "Tartes") (js "Eric Kayser") None None None None
         None (js "2024-06-01T00:00:00.000Z"))] initial)) /\
    b1 <> b2 /\ Book.id b1 = Book.id b2 /\
    ~ unique_ids (perform_all
      [AddBook (Book.mk (js "1") (js "Tartes") (js "Eric Kayser") None None None None
         None (js "2024-06-01T00:00:00.000Z"))] initial).
Proof.
  exists (Book.mk (js "1") (js "Simplissime") (js "Jean-François Mallet") None
            (Some (js "Hachette Pratique")) (Some 2015%Z) None (Some (js "Cuisine rapide"))
            (js "2024-01-15T00:00:00.000Z")),
         (Book.mk (js "1") (js "Tartes") (js "Eric Kayser") None None None None
            None (js "2024-06-01T00:00:00.000Z")).
  split; [left; reflexivity|].
  split; [do 4 right; left; reflexivity|].
  split; [intros H; apply (f_equal Book.editor) in H; discriminate|].
  split; [reflexivity|].
  intros [H _]. simpl in H. inversion H as [|x l Hnin _]; subst.
  apply Hnin. do 3 right; left; reflexivity.
Qed.

(** ** Sorting by confidence *)

Lemma sort_insert_perm {A} (compare : A -> A -> Q) (x : A) (l : list A) :
  Permutation (x :: l) (sort_insert compare x l).
Proof.
  induction l as [|y l IH]; simpl.
  - reflexivity.
  - destruct (Qle_bool (compare x y) 0).
    + reflexivity.
    + rewrite perm_swap. constructor. exact IH.
Qed.

Lemma Array_sort_perm {A} (compare : A -> A -> Q) (l : list A) :
  Permutation l (Array_sort compare l).
Proof.
  induction l as [|x l IH]; simpl.
  - reflexivity.
  - rewrite <- sort_insert_perm. constructor. exact IH.
Qed.

Lemma by_confidence_desc_le (x y : CategorySuggestion) :
  Qle_bool (by_confidence_desc x y) 0 = true <-> confidence_ge x y.
Proof.
  rewrite Qle_bool_iff. unfold by_confidence_desc, confidence_ge. split; intros; lra.
Qed.

Lemma by_confidence_desc_gt (x y : CategorySuggestion) :
  Qle_bool (by_confidence_desc x y) 0 = false -> (confidence x < confidence y)%Q.
Proof.
  intros H. apply Qnot_le_lt. intros Hle.
  assert (Qle_bool (by_confidence_desc x y) 0 = true) by (apply by_confidence_desc_le, Hle).
  congruence.
Qed.

Lemma sort_insert_sorted (x : CategorySuggestion) (l : list CategorySuggestion) :
  StronglySorted confidence_ge l ->
  StronglySorted confidence_ge (sort_insert by_confidence_desc x l).
Proof.
  induction 1 as [|y l Hs IH Hy]; simpl.
  - repeat constructor.
  - destruct (Qle_bool (by_confidence_desc x y) 0) eqn:E.
    + apply by_confidence_desc_le in E.
      constructor; [constructor; assumption|].
      constructor; [exact E|].
      rewrite Forall_forall in *. intros z Hz. specialize (Hy z Hz).
      unfold confidence_ge in *. lra.
    + apply by_confidence_desc_gt in E.
      constructor; [exact IH|].
      rewrite Forall_forall in *. intros z Hz.
      apply (Permutation_in _ (Permutation_sym (sort_insert_perm by_confidence_desc x l)))
        in Hz.
      destruct Hz as [<- | Hz].
      * unfold confidence_ge. lra.
      * apply Hy, Hz.
Qed.

Lemma Array_sort_sorted (l : list CategorySuggestion) :
  StronglySorted confidence_ge (Array_sort by_confidence_desc l).
Proof.
  induction l as [|x l IH]; simpl.
  - constructor.
  - apply sort_insert_sorted, IH.
Qed.

Lemma sort_insert_stable (c : Q) (x : CategorySuggestion) (l : list CategorySuggestion) :
  with_confidence c (sort_insert by_confidence_desc x l) = with_confidence c (x :: l).
Proof.
  unfold with_confidence. induction l as [|y l IH]; simpl.
  - reflexivity.
  - destruct (Qle_bool (by_confidence_desc x y) 0) eqn:E.
    + reflexivity.
    + apply by_confidence_desc_gt in E. simpl. rewrite IH. simpl.
      destruct (Qeq_bool (confidence x) c) eqn:Ex;
        destruct (Qeq_bool (confidence y) c) eqn:Ey; try reflexivity.
      apply Qeq_bool_iff in Ex, Ey. exfalso. lra.
Qed.

Lemma Array_sort_stable (c : Q) (l : list CategorySuggestion) :
  with_confidence c (Array_sort by_confidence_desc l) = with_confidence c l.
Proof.
  induction l as [|x l IH]; simpl.
  - reflexivity.
  - rewrite sort_insert_stable. unfold with_confidence in *. simpl. rewrite IH.
    reflexivity.
Qed.

(** ** Category suggestion *)

Lemma suggestBookCategory_expected (toLowerCase : jsstring -> jsstring)
  (title author : jsstring) (pseudonym : option jsstring) :
  suggestBookCategory toLowerCase title author pseudonym
  = expected_suggestions (toLowerCase title).
Proof.
  unfold suggestBookCategory, expected_suggestions, contains_any, existsb.
  rewrite !orb_false_r, !orb_assoc.
  set (t := toLowerCase title).
  destruct (includes t (js "pâtisserie") || includes t (js "dessert")
            || includes t (js "gâteau")); [reflexivity|].
  destruct (includes t (js "végé") || includes t (js "vegan")); [reflexivity|].
  destruct (includes t (js "rapide") || includes t (js "simple")); reflexivity.
Qed.

(** C5.  For every title, author and pseudonym the result is the
    three-element list of the specification: the baseline with its first
    slot replaced by the first keyword group the lower-cased title contains.
    The sort the code ends with puts any list in descending order of
    confidence and keeps equal confidences in their input order.  With the
    Latin-1 lower-casing, ["La Pâtisserie Moderne"] gives a list headed by
    ("Pâtisserie", 0.9) and ["Plain Book"] gives the baseline. *)
Theorem suggestBookCategory_spec :
  (forall toLowerCase title author pseudonym,
     suggestBookCategory toLowerCase title author pseudonym
     = expected_suggestions (toLowerCase title) /\
     List.length (suggestBookCategory toLowerCase title author pseudonym) = 3 /\
     StronglySorted confidence_ge
       (suggestBookCategory toLowerCase title author pseudonym)) /\
  (forall l,
     StronglySorted confidence_ge (Array_sort by_confidence_desc l) /\
     Permutation l (Array_sort by_confidence_desc l) /\
     forall c, with_confidence c (Array_sort by_confidence_desc l) = with_confidence c l) /\
  suggestBookCategory toLowerCase_latin1 (js "La Pâtisserie Moderne") (js "X") None
  = [ mkSuggestion (js "Pâtisserie") 0.9; mkSuggestion (js "Pâtisserie") 0.5;
      mkSuggestion (js "Gastronomie") 0.4 ] /\
  suggestBookCategory toLowerCase_latin1 (js "Plain Book") (js "X") None
  = [ mkSuggestion (js "Cuisine générale") 0.7; mkSuggestion (js "Pâtisserie") 0.5;
      mkSuggestion (js "Gastronomie") 0.4 ].
Proof.
  split; [|split; [|split]].
  - intros toLowerCase title author pseudonym.
    split; [apply suggestBookCategory_expected|].
    split.
    + rewrite suggestBookCategory_expected. reflexivity.
    + unfold suggestBookCategory. apply Array_sort_sorted.
  - intros l. split; [apply Array_sort_sorted|].
    split; [apply Array_sort_perm | intros c; apply Array_sort_stable].
  - vm_compute. reflexivity.
  - vm_compute. reflexivity.
Qed.

(** ** Collection membership *)

Lemma shares_tag_check (r : Recipe.t) (c : Collection.t) :
  existsb (fun tag => Array_includes (Collection.tags c) tag) (Recipe.tags r) = true
  <-> shares_tag r c.
Proof.
  unfold shares_tag. rewrite existsb_exists.
  split; intros [t [Ht Hc]]; exists t; split; try exact Ht; apply Array_includes_In, Hc.
Qed.

(** C3.  The recipes a collection shows are the recipes that carry at least
    one of its tags.  With the tags {a}, {b}, {a, b} and {c} on four recipes
    and the collection tags {a, b}, the first three are shown. *)
Theorem collection_membership_is_or :
  (forall collection recipes r,
     In r (CollectionDetailScreen.filteredRecipes collection recipes)
     <-> In r recipes /\ shares_tag r collection) /\
  (let recipe i tags :=
     Recipe.mk (js i) (js "Recette") None tags (js "") false None
       (js "2024-06-01T00:00:00.000Z") in
   let r1 := recipe "1"%string [js "a"] in
   let r2 := recipe "2"%string [js "b"] in
   let r3 := recipe "3"%string [js "a"; js "b"] in
   let r4 := recipe "4"%string [js "c"] in
   let C := Collection.mk (js "1") (js "C") [js "a"; js "b"]
              (js "2024-06-01T00:00:00.000Z") in
   CollectionDetailScreen.filteredRecipes C [r1; r2; r3; r4] = [r1; r2; r3]).
Proof.
  split.
  - intros collection recipes r. unfold CollectionDetailScreen.filteredRecipes.
    rewrite filter_In, shares_tag_check. reflexivity.
  - vm_compute. reflexivity.
Qed.

(** ** Search *)

Lemma includes_ci (toLowerCase : jsstring -> jsstring) (query s : jsstring) :
  includes (toLowerCase s) (toLowerCase query) = true
  <-> ci_substring toLowerCase query s.
Proof. apply includes_spec. Qed.

Lemma and_then_ci (toLowerCase : jsstring -> jsstring) (query : jsstring)
  (o : option jsstring) :
  toLowerCase [] = [] ->
  and_then o (fun s => includes (toLowerCase s) (toLowerCase query)) = true
  \/ toLowerCase query = []
  <-> (exists s, o = Some s /\ ci_substring toLowerCase query s)
      \/ toLowerCase query = [].
Proof.
  intros Hnil. unfold and_then. destruct o as [s|].
  - destruct (str_eqb s []) eqn:E; simpl.
    + apply str_eqb_eq in E; subst s. split.
      * intros [H | H]; [discriminate | right; exact H].
      * intros [[s [Hs Hci]] | H]; [|right; exact H].
        injection Hs as <-. right.
        apply includes_ci in Hci. rewrite Hnil in Hci.
        apply empty_includes, Hci.
    + rewrite includes_ci. split.
      * intros [H | H]; [left; exists s; auto | right; exact H].
      * intros [[s' [Hs Hci]] | H]; [left; congruence | right; exact H].
  - split.
    + intros [H | H]; [discriminate | right; exact H].
    + intros [[s [Hs _]] | H]; [discriminate | right; exact H].
Qed.

Lemma ci_empty_query (toLowerCase : jsstring -> jsstring) (query s : jsstring) :
  toLowerCase query = [] -> ci_substring toLowerCase query s.
Proof.
  intros H. apply includes_ci. rewrite H. apply includes_empty.
Qed.

(** C6.  With a lower-casing that keeps the empty string empty, a book is in
    the search result exactly when it is in the list and the query is a
    case-insensitive substring of its title, its author, its pseudonym or its
    category; the empty query keeps every book.  With the Latin-1
    lower-casing, the query ["PÂTISSERIE"] finds a book whose only match is
    its category ["Pâtisserie"]. *)
Theorem books_search_spec :
  (forall toLowerCase, toLowerCase [] = [] ->
     (forall searchQuery books book,
        In book (BooksScreen.filteredBooks toLowerCase searchQuery books)
        <-> In book books /\
            (ci_substring toLowerCase searchQuery (Book.title book) \/
             ci_substring toLowerCase searchQuery (Book.author book) \/
             (exists p, Book.pseudonym book = Some p /\
                        ci_substring toLowerCase searchQuery p) \/
             (exists c, Book.category book = Some c /\
                        ci_substring toLowerCase searchQuery c))) /\
     (forall books, BooksScreen.filteredBooks toLowerCase [] books = books)) /\
  (let book :=
     Book.mk (js "7") (js "Tartes") (js "Eric Kayser") None None None None
       (Some (js "Pâtisserie")) (js "2024-06-01T00:00:00.000Z") in
   BooksScreen.filteredBooks toLowerCase_latin1 (js "PÂTISSERIE") [book] = [book]).
Proof.
  split; [|vm_compute; reflexivity].
  intros toLowerCase Hnil. split.
  - intros searchQuery books book. unfold BooksScreen.filteredBooks.
    rewrite filter_In. apply and_iff_compat_l.
    pose proof (@and_then_ci toLowerCase searchQuery (Book.pseudonym book) Hnil) as Hp.
    pose proof (@and_then_ci toLowerCase searchQuery (Book.category book) Hnil) as Hc.
    rewrite !orb_true_iff, !includes_ci.
    split.
    + intros [[[H | H] | H] | H]; auto.
      * destruct (proj1 Hp (or_introl H)) as [H' | H']; auto.
        left. apply ci_empty_query, H'.
      * destruct (proj1 Hc (or_introl H)) as [H' | H']; auto.
        left. apply ci_empty_query, H'.
    + intros [H | [H | [H | H]]]; auto.
      * destruct (proj2 Hp (or_introl H)) as [H' | H']; auto.
        left; left; left. apply ci_empty_query, H'.
      * destruct (proj2 Hc (or_introl H)) as [H' | H']; auto.
        left; left; left. apply ci_empty_query, H'.
  - intros books. unfold BooksScreen.filteredBooks. rewrite Hnil.
    induction books as [|b books IH]; simpl; [reflexivity|].
    rewrite includes_empty. simpl. f_equal. exact IH.
Qed.

(** The theorem with the Latin-1 lower-casing: the empty query keeps the four
    books of the initial state. *)
Lemma books_search_spec_initial :
  BooksScreen.filteredBooks toLowerCase_latin1 [] INITIAL_BOOKS = INITIAL_BOOKS.
Proof.
  exact (proj2 (proj1 books_search_spec toLowerCase_latin1 eq_refl) INITIAL_BOOKS).
Defined.

(** C7.  A recipe is in the list of the recipes screen exactly when it is in
    the store, the query is a case-insensitive substring of its name or of
    one of its tags, and it is a favorite or the favorites filter is off. *)
Theorem recipes_search_spec (toLowerCase : jsstring -> jsstring)
  (searchQuery : jsstring) (showFavoritesOnly : bool) (recipes : list Recipe.t)
  (recipe : Recipe.t) :
  In recipe (RecipesScreen.filteredRecipes toLowerCase searchQuery showFavoritesOnly recipes)
  <-> In recipe recipes /\
      (ci_substring toLowerCase searchQuery (Recipe.name recipe) \/
       exists tag, In tag (Recipe.tags recipe) /\
                   ci_substring toLowerCase searchQuery tag) /\
      (showFavoritesOnly = false \/ Recipe.isFavorite recipe = true).
Proof.
  unfold RecipesScreen.filteredRecipes. rewrite filter_In.
  apply and_iff_compat_l.
  rewrite andb_true_iff, !orb_true_iff, negb_true_iff, includes_ci, existsb_exists.
  apply and_iff_compat_r, or_iff_compat_l.
  split; intros [tag [Ht Hi]]; exists tag; split; try exact Ht; apply includes_ci, Hi.
Qed.

(** * Further properties of the screens and of the store *)

(** ** White space *)

Lemma trimStart_nonspace (c : N) (s : jsstring) :
  is_space c = false -> trimStart (c :: s) = c :: s.
Proof. intros H; simpl; rewrite H; reflexivity. Qed.

Lemma trimEnd_nonspace (c : N) (s : jsstring) :
  is_space c = false -> trimEnd (c :: s) = c :: trimEnd s.
Proof.
  intros H; simpl. destruct (trimEnd s); [rewrite H|]; reflexivity.
Qed.

Lemma trimStart_head (s : jsstring) :
  trimStart s = [] \/ exists c t, trimStart s = c :: t /\ is_space c = false.
Proof.
  induction s as [|c s IH]; simpl.
  - left; reflexivity.
  - destruct (is_space c) eqn:E; [exact IH|].
    right; exists c, s; split; [reflexivity | exact E].
Qed.

Lemma trimEnd_idempotent (s : jsstring) : trimEnd (trimEnd s) = trimEnd s.
Proof.
  induction s as [|c s IH]; simpl; [reflexivity|].
  destruct (trimEnd s) as [|x t] eqn:E.
  - destruct (is_space c) eqn:Ec; simpl; [|rewrite Ec]; reflexivity.
  - change (trimEnd (c :: x :: t)) with
      (match trimEnd (x :: t) with
       | [] => if is_space c then [] else [c]
       | u => c :: u
       end).
    rewrite IH. reflexivity.
Qed.

Lemma trimEnd_snoc (l : jsstring) (c : N) :
  is_space c = false -> trimEnd (l ++ [c]) = l ++ [c].
Proof.
  intros H. induction l as [|x l IH]; simpl.
  - rewrite H; reflexivity.
  - rewrite IH. destruct (l ++ [c]) eqn:E; [|reflexivity].
    destruct l; discriminate.
Qed.

Lemma trim_idempotent (s : jsstring) : trim (trim s) = trim s.
Proof.
  unfold trim. destruct (trimStart_head s) as [E | (c & t & E & Hc)]; rewrite E.
  - reflexivity.
  - rewrite (@trimEnd_nonspace c t Hc), (@trimStart_nonspace c _ Hc).
    rewrite <- (@trimEnd_nonspace c t Hc). apply trimEnd_idempotent.
Qed.

Lemma trim_head (s : jsstring) :
  trim s = [] \/ exists c t, trim s = c :: t /\ is_space c = false.
Proof.
  unfold trim. destruct (trimStart_head s) as [E | (c & t & E & Hc)]; rewrite E.
  - left; reflexivity.
  - right. rewrite (@trimEnd_nonspace c t Hc). eauto.
Qed.

Lemma truthy_nonempty (s : jsstring) : truthy s = true <-> s <> [].
Proof. unfold truthy. rewrite negb_true_iff. apply str_eqb_neq. Qed.

Lemma truthy_trim (s : jsstring) : truthy (trim s) = true -> truthy s = true.
Proof.
  rewrite !truthy_nonempty. intros H E; subst s. apply H; reflexivity.
Qed.

(** A string that starts and ends with something else than white space is
    kept by [trim]. *)
Lemma trim_fixed (c d : N) (mid : jsstring) :
  is_space c = false -> is_space d = false ->
  trim (c :: mid ++ [d]) = c :: mid ++ [d].
Proof.
  intros Hc Hd. unfold trim. rewrite (@trimStart_nonspace c _ Hc).
  apply (@trimEnd_snoc (c :: mid) d Hd).
Qed.

(** ** [formatAuthorDisplay] and [getAuthorPrimaryName] *)

(** X1.  What [formatAuthorDisplay] returns never starts or ends with white
    space: trimming it again changes nothing. *)
Theorem formatAuthorDisplay_trimmed (author : jsstring) (pseudonym : option jsstring) :
  trim (formatters.formatAuthorDisplay author pseudonym)
  = formatters.formatAuthorDisplay author pseudonym.
Proof.
  unfold formatters.formatAuthorDisplay.
  destruct pseudonym as [p|]; [|apply trim_idempotent].
  destruct (truthy p && truthy (trim p)) eqn:Ep; [|apply trim_idempotent].
  destruct (truthy author && truthy (trim author)); [|apply trim_idempotent].
  apply andb_true_iff in Ep as [_ Ep]. apply truthy_nonempty in Ep.
  destruct (trim_head p) as [E | (c & t & E & Hc)]; [contradiction|].
  rewrite E. change (js ")") with [41%N].
  rewrite <- !app_comm_cons, !app_assoc. apply trim_fixed; [exact Hc | reflexivity].
Qed.

(** X2.  [formatAuthorDisplay] returns the empty string exactly when the
    author is blank and the pseudonym is absent or blank. *)
Theorem formatAuthorDisplay_empty (author : jsstring) (pseudonym : option jsstring) :
  formatters.formatAuthorDisplay author pseudonym = []
  <-> trim author = [] /\
      match pseudonym with Some p => trim p = [] | None => True end.
Proof.
  unfold formatters.formatAuthorDisplay. destruct pseudonym as [p|].
  - destruct (truthy p && truthy (trim p)) eqn:Ep.
    + apply andb_true_iff in Ep as [_ Ep]. apply truthy_nonempty in Ep.
      destruct (truthy author && truthy (trim author)).
      * split; [|intros [_ H]; contradiction].
        intros H. apply app_eq_nil in H as [H _]. contradiction.
      * split; [intros H; contradiction | intros [_ H]; contradiction].
    + assert (Hp : trim p = []).
      { destruct (truthy (trim p)) eqn:Et.
        - rewrite (@truthy_trim p Et) in Ep. discriminate.
        - unfold truthy in Et. apply negb_false_iff, str_eqb_eq in Et. exact Et. }
      tauto.
  - tauto.
Qed.

(** X3.  The name [getAuthorPrimaryName] returns is the beginning of what
    [formatAuthorDisplay] shows for the same author and pseudonym. *)
Theorem primary_name_starts_display (author : jsstring) (pseudonym : option jsstring) :
  startsWith (formatters.formatAuthorDisplay author pseudonym)
    (formatters.getAuthorPrimaryName author pseudonym) = true.
Proof.
  apply startsWith_spec.
  unfold formatters.formatAuthorDisplay, formatters.getAuthorPrimaryName.
  destruct pseudonym as [p|]; [|exists []; rewrite app_nil_r; reflexivity].
  destruct (truthy p && truthy (trim p)); [|exists []; rewrite app_nil_r; reflexivity].
  destruct (truthy author && truthy (trim author)).
  - eexists; reflexivity.
  - exists []; rewrite app_nil_r; reflexivity.
Qed.

(** ** Device classes *)

Lemma Qltb_lt (a b : Q) : responsive.Qltb a b = true <-> (a < b)%Q.
Proof.
  unfold responsive.Qltb. rewrite negb_true_iff. split.
  - intros H. apply Qnot_le_lt. intros Hle. apply Qle_bool_iff in Hle. congruence.
  - intros H. destruct (Qle_bool b a) eqn:E; [|reflexivity].
    apply Qle_bool_iff in E. exfalso. apply (Qlt_not_le _ _ H E).
Qed.

Lemma Qltb_le (a b : Q) : responsive.Qltb a b = negb (Qle_bool b a).
Proof. reflexivity. Qed.

(** X4.  Whatever the width of the screen, exactly one of the four device
    classes holds. *)
Theorem deviceType_partition (SCREEN_WIDTH : Q) :
  let flags :=
    [ responsive.deviceType.isSmallPhone SCREEN_WIDTH;
      responsive.deviceType.isPhone SCREEN_WIDTH;
      responsive.deviceType.isTablet SCREEN_WIDTH;
      responsive.deviceType.isLargeTablet SCREEN_WIDTH ] in
  List.length (filter (fun b => b) flags) = 1.
Proof.
  unfold responsive.deviceType.isSmallPhone, responsive.deviceType.isPhone,
    responsive.deviceType.isTablet, responsive.deviceType.isLargeTablet,
    responsive.Qltb.
  destruct (Qle_bool responsive.breakpoints.phone SCREEN_WIDTH) eqn:E1;
  destruct (Qle_bool responsive.breakpoints.tablet SCREEN_WIDTH) eqn:E2;
  destruct (Qle_bool responsive.breakpoints.largeTablet SCREEN_WIDTH) eqn:E3;
    try reflexivity; exfalso;
    repeat match goal with
    | H : Qle_bool _ _ = true |- _ => apply Qle_bool_iff in H
    | H : Qle_bool ?a ?b = false |- _ =>
      assert (b < a)%Q
        by (apply Qnot_le_lt; intros Hle; apply Qle_bool_iff in Hle; congruence);
      clear H
    end;
    unfold responsive.breakpoints.phone, responsive.breakpoints.tablet,
      responsive.breakpoints.largeTablet in *; lra.
Qed.

(** X5.  The grid of books has three columns on a width from 768 up to, not
    including, 1024 and two columns on every other width; the four columns
    prepared for a large tablet are never returned, because
    [getResponsiveValue] hands out its large value on [isTablet] only.  In
    the same way the drawer is 280 wide on those widths and 240 wide
    elsewhere, never 320. *)
Theorem large_tablet_gets_small_value (SCREEN_WIDTH : Q) :
  BooksScreen.numColumns SCREEN_WIDTH
  = (if responsive.deviceType.isTablet SCREEN_WIDTH then 3%Z else 2%Z) /\
  BooksScreen.numColumns SCREEN_WIDTH <> 4%Z /\
  AppNavigator.drawerWidth SCREEN_WIDTH
  = (if responsive.deviceType.isTablet SCREEN_WIDTH then 280%Z else 240%Z) /\
  AppNavigator.drawerWidth SCREEN_WIDTH <> 320%Z.
Proof.
  assert (H : responsive.deviceType.isTablet SCREEN_WIDTH = true ->
              responsive.deviceType.isLargeTablet SCREEN_WIDTH = false).
  { unfold responsive.deviceType.isTablet, responsive.deviceType.isLargeTablet,
      responsive.Qltb.
    intros E. apply andb_true_iff in E as [_ E]. apply negb_true_iff in E. exact E. }
  unfold BooksScreen.numColumns, AppNavigator.drawerWidth, responsive.getResponsiveValue.
  destruct (responsive.deviceType.isTablet SCREEN_WIDTH) eqn:Et.
  - rewrite (H eq_refl). repeat split; discriminate.
  - destruct (responsive.deviceType.isPhone SCREEN_WIDTH); repeat split; discriminate.
Qed.

(** ** Lookups by id *)

Lemma find_by_id_snoc {A} (key : A -> jsstring) (i : jsstring) (l : list A) (x : A) :
  find_by_id key i (l ++ [x])
  = match find_by_id key i l with
    | Some y => Some y
    | None => if str_eqb (key x) i then Some x else None
    end.
Proof.
  unfold find_by_id. induction l as [|y l IH]; simpl.
  - reflexivity.
  - destruct (str_eqb (key y) i); [reflexivity | exact IH].
Qed.

Lemma find_by_id_replaced {A} (key : A -> jsstring) (new : A) (l : list A) :
  find_by_id key (key new)
    (map (fun x => if str_eqb (key x) (key new) then new else x) l)
  = if Array_includes (map key l) (key new) then Some new else None.
Proof.
  unfold find_by_id, Array_includes. induction l as [|y l IH]; simpl.
  - reflexivity.
  - destruct (str_eqb (key y) (key new)) eqn:E; simpl.
    + rewrite str_eqb_refl. reflexivity.
    + rewrite E. exact IH.
Qed.

Lemma find_by_id_replace_other {A} (key : A -> jsstring) (new : A) (j : jsstring)
  (l : list A) :
  j <> key new ->
  find_by_id key j (map (fun x => if str_eqb (key x) (key new) then new else x) l)
  = find_by_id key j l.
Proof.
  intros Hj. unfold find_by_id. induction l as [|y l IH]; simpl.
  - reflexivity.
  - destruct (str_eqb (key y) (key new)) eqn:E.
    + apply str_eqb_eq in E. rewrite E.
      assert (Hn : str_eqb (key new) j = false)
        by (apply str_eqb_neq; congruence).
      rewrite Hn. exact IH.
    + destruct (str_eqb (key y) j); [reflexivity | exact IH].
Qed.

Lemma find_by_id_removed {A} (key : A -> jsstring) (i j : jsstring) (l : list A) :
  find_by_id key j (filter (fun x => negb (str_eqb (key x) i)) l)
  = if str_eqb j i then None else find_by_id key j l.
Proof.
  unfold find_by_id. induction l as [|y l IH]; simpl.
  - destruct (str_eqb j i); reflexivity.
  - destruct (str_eqb (key y) i) eqn:E; simpl.
    + rewrite IH. destruct (str_eqb j i) eqn:Ej; [reflexivity|].
      apply str_eqb_eq in E.
      assert (Hn : str_eqb (key y) j = false).
      { apply str_eqb_neq. intros H. apply str_eqb_neq in Ej. congruence. }
      rewrite Hn. reflexivity.
    + destruct (str_eqb (key y) j) eqn:Ey.
      * apply str_eqb_eq in Ey. subst j. rewrite E. reflexivity.
      * exact IH.
Qed.

Lemma after_addBook (book : Book.t) (s : Store) :
  after (addBook book) s
  = mkStore (books s ++ [book]) (recipes s) (tags s) (collections s).
Proof. reflexivity. Qed.

Lemma after_addCollection (collection : Collection.t) (s : Store) :
  after (addCollection collection) s
  = mkStore (books s) (recipes s) (tags s) (collections s ++ [collection]).
Proof. reflexivity. Qed.

(** X6.  After an update, looking up the id of the argument finds the
    argument when a record carried that id, and nothing otherwise (an update
    never inserts); a lookup of any other id answers as before. *)
Theorem update_then_find (s : Store) :
  (forall book,
     BookDetailScreen.book (books (after (updateBook book) s)) (Book.id book)
     = (if Array_includes (map Book.id (books s)) (Book.id book)
        then Some book else None)) /\
  (forall recipe,
     RecipeDetailScreen.recipe (recipes (after (updateRecipe recipe) s))
       (Recipe.id recipe)
     = (if Array_includes (map Recipe.id (recipes s)) (Recipe.id recipe)
        then Some recipe else None)) /\
  (forall collection,
     find_by_id Collection.id (Collection.id collection)
       (collections (after (updateCollection collection) s))
     = (if Array_includes (map Collection.id (collections s)) (Collection.id collection)
        then Some collection else None)) /\
  (forall book j, j <> Book.id book ->
     BookDetailScreen.book (books (after (updateBook book) s)) j
     = BookDetailScreen.book (books s) j) /\
  (forall recipe j, j <> Recipe.id recipe ->
     RecipeDetailScreen.recipe (recipes (after (updateRecipe recipe) s)) j
     = RecipeDetailScreen.recipe (recipes s) j) /\
  (forall collection j, j <> Collection.id collection ->
     find_by_id Collection.id j (collections (after (updateCollection collection) s))
     = find_by_id Collection.id j (collections s)).
Proof.
  unfold BookDetailScreen.book, RecipeDetailScreen.recipe.
  repeat split; intros.
  - rewrite after_updateBook; simpl. apply (find_by_id_replaced Book.id).
  - rewrite after_updateRecipe; simpl. apply (find_by_id_replaced Recipe.id).
  - rewrite after_updateCollection; simpl. apply (find_by_id_replaced Collection.id).
  - rewrite after_updateBook; simpl. apply (find_by_id_replace_other Book.id); assumption.
  - rewrite after_updateRecipe; simpl.
    apply (find_by_id_replace_other Recipe.id); assumption.
  - rewrite after_updateCollection; simpl.
    apply (find_by_id_replace_other Collection.id); assumption.
Qed.

(** X7.  After an add, a lookup by id still finds the record that carried
    the id before, if there was one: a record added under a used id is
    shadowed by the older one.  Only when no record carried the id does the
    lookup find the added record. *)
Theorem add_then_find (s : Store) (i : jsstring) :
  (forall book,
     BookDetailScreen.book (books (after (addBook book) s)) i
     = match BookDetailScreen.book (books s) i with
       | Some old => Some old
       | None => if str_eqb (Book.id book) i then Some book else None
       end) /\
  (forall recipe,
     RecipeDetailScreen.recipe (recipes (after (addRecipe recipe) s)) i
     = match RecipeDetailScreen.recipe (recipes s) i with
       | Some old => Some old
       | None => if str_eqb (Recipe.id recipe) i then Some recipe else None
       end) /\
  (forall collection,
     find_by_id Collection.id i (collections (after (addCollection collection) s))
     = match find_by_id Collection.id i (collections s) with
       | Some old => Some old
       | None => if str_eqb (Collection.id collection) i then Some collection else None
       end).
Proof.
  unfold BookDetailScreen.book, RecipeDetailScreen.recipe.
  repeat split; intros.
  - rewrite after_addBook; simpl. apply find_by_id_snoc.
  - rewrite after_addRecipe; simpl. apply find_by_id_snoc.
  - rewrite after_addCollection; simpl. apply find_by_id_snoc.
Qed.

Lemma In_remove_by_id {A} (key : A -> jsstring) (i : jsstring) (l : list A) (x : A) :
  In x (filter (fun y => negb (str_eqb (key y) i)) l) <-> In x l /\ key x <> i.
Proof. rewrite filter_In, negb_true_iff, str_eqb_neq. reflexivity. Qed.

(** X8.  A delete removes every record carrying the id and nothing else:
    the records left are those of before with another id, and a lookup of the
    deleted id finds nothing while lookups of other ids answer as before. *)
Theorem delete_then_find (s : Store) (i : jsstring) :
  (forall b, In b (books (after (deleteBook i) s)) <-> In b (books s) /\ Book.id b <> i) /\
  (forall r, In r (recipes (after (deleteRecipe i) s))
             <-> In r (recipes s) /\ Recipe.id r <> i) /\
  (forall c, In c (collections (after (deleteCollection i) s))
             <-> In c (collections s) /\ Collection.id c <> i) /\
  (forall j, BookDetailScreen.book (books (after (deleteBook i) s)) j
             = if str_eqb j i then None else BookDetailScreen.book (books s) j) /\
  (forall j, RecipeDetailScreen.recipe (recipes (after (deleteRecipe i) s)) j
             = if str_eqb j i then None else RecipeDetailScreen.recipe (recipes s) j) /\
  (forall j, find_by_id Collection.id j (collections (after (deleteCollection i) s))
             = if str_eqb j i then None else find_by_id Collection.id j (collections s)).
Proof.
  unfold BookDetailScreen.book, RecipeDetailScreen.recipe.
  rewrite after_deleteBook, after_deleteRecipe, after_deleteCollection; simpl.
  split; [|split; [|split; [|split; [|split]]]]; intros.
  - apply (In_remove_by_id Book.id).
  - apply (In_remove_by_id Recipe.id).
  - apply (In_remove_by_id Collection.id).
  - apply (find_by_id_removed Book.id).
  - apply (find_by_id_removed Recipe.id).
  - apply (find_by_id_removed Collection.id).
Qed.

(** ** Invariants of the store *)

Lemma ids_after_replace {A} (key : A -> jsstring) (new : A) (l : list A) :
  map key (map (fun x => if str_eqb (key x) (key new) then new else x) l) = map key l.
Proof.
  induction l as [|y l IH]; simpl; [reflexivity|]. rewrite IH. f_equal.
  destruct (str_eqb (key y) (key new)) eqn:E; [|reflexivity].
  apply str_eqb_eq in E. congruence.
Qed.

Lemma ids_after_detach (i : jsstring) (l : list Recipe.t) :
  map Recipe.id (map (fun r => if bookId_is r i then without_book r else r) l)
  = map Recipe.id l.
Proof.
  induction l as [|r l IH]; simpl; [reflexivity|]. rewrite IH. f_equal.
  destruct (bookId_is r i); reflexivity.
Qed.

Lemma ids_after_toggle (i : jsstring) (l : list Recipe.t) :
  map Recipe.id (map (fun r => if str_eqb (Recipe.id r) i then flip_favorite r else r) l)
  = map Recipe.id l.
Proof.
  induction l as [|r l IH]; simpl; [reflexivity|]. rewrite IH. f_equal.
  destruct (str_eqb (Recipe.id r) i); reflexivity.
Qed.

Lemma NoDup_ids_filter {A} (key : A -> jsstring) (f : A -> bool) (l : list A) :
  NoDup (map key l) -> NoDup (map key (filter f l)).
Proof.
  induction l as [|x l IH]; simpl; intros H; [exact H|].
  inversion H as [|k ks Hnin Hrest]; subst.
  destruct (f x); [|apply IH, Hrest].
  simpl. constructor; [|apply IH, Hrest].
  intros Hin. apply Hnin. apply in_map_iff in Hin as [y [Ey Hy]].
  apply filter_In in Hy as [Hy _]. apply in_map_iff. exists y; split; assumption.
Qed.

Lemma after_addTag (tag : jsstring) (s : Store) :
  after (addTag tag) s
  = mkStore (books s) (recipes s)
      (if Array_includes (tags s) tag then tags s else tags s ++ [tag])
      (collections s).
Proof.
  unfold after, rendered_after, addTag. cbn.
  destruct (Array_includes (tags s) tag); cbn; [symmetry; apply store_eta | reflexivity].
Qed.

(** X9.  No operation other than the adds can make two records share an id:
    from a store with unique ids, every update, delete and toggle, and
    [addTag], lead to a store with unique ids. *)
Theorem other_operations_keep_ids_unique (s : Store) (book : Book.t)
  (recipe : Recipe.t) (collection : Collection.t) (i tag : jsstring) :
  unique_ids s ->
  unique_ids (after (updateBook book) s) /\
  unique_ids (after (deleteBook i) s) /\
  unique_ids (after (updateRecipe recipe) s) /\
  unique_ids (after (deleteRecipe i) s) /\
  unique_ids (after (toggleFavorite i) s) /\
  unique_ids (after (addTag tag) s) /\
  unique_ids (after (updateCollection collection) s) /\
  unique_ids (after (deleteCollection i) s).
Proof.
  intros (Hb & Hr & Hc).
  rewrite after_updateBook, after_deleteBook, after_updateRecipe, after_deleteRecipe,
    after_toggleFavorite, after_addTag, after_updateCollection, after_deleteCollection.
  unfold unique_ids; simpl.
  rewrite (ids_after_replace Book.id), (ids_after_replace Recipe.id),
    (ids_after_replace Collection.id), ids_after_detach, ids_after_toggle.
  repeat split; auto using NoDup_ids_filter.
Qed.

(** The theorem at the initial state, for the book ["1"] and the recipe
    ["2"]. *)
Lemma other_operations_keep_ids_unique_initial :
  unique_ids (after (deleteBook (js "1")) initial) /\
  unique_ids (after (toggleFavorite (js "1")) initial).
Proof.
  pose proof (@other_operations_keep_ids_unique initial
    (Book.mk (js "1") (js "Tartes") (js "Eric Kayser") None None None None None
       (js "2024-06-01T00:00:00.000Z"))
    (Recipe.mk (js "2") (js "Soupe") None [js "hiver"] (js "") false None
       (js "2024-06-01T00:00:00.000Z"))
    (Collection.mk (js "1") (js "Hiver") [js "hiver"] (js "2024-06-01T00:00:00.000Z"))
    (js "1") (js "hiver") unique_ids_initial) as (_ & H1 & _ & _ & H2 & _).
  split; [exact H1 | exact H2].
Defined.

Lemma bookId_is_detached (i j : jsstring) (r : Recipe.t) :
  bookId_is (if bookId_is r i then without_book r else r) j
  = if str_eqb j i then false else bookId_is r j.
Proof.
  destruct (bookId_is r i) eqn:E.
  - apply bookId_is_true in E.
    change (bookId_is (without_book r) j) with false.
    destruct (str_eqb j i) eqn:Ej; [reflexivity|].
    unfold bookId_is. rewrite E. symmetry. apply str_eqb_neq.
    apply str_eqb_neq in Ej. congruence.
  - destruct (str_eqb j i) eqn:Ej; [|reflexivity].
    apply str_eqb_eq in Ej; subst j. exact E.
Qed.

Lemma bookRecipes_after_detach (i j : jsstring) (l : list Recipe.t) :
  BookDetailScreen.bookRecipes
    (map (fun r => if bookId_is r i then without_book r else r) l) j
  = if str_eqb j i then [] else BookDetailScreen.bookRecipes l j.
Proof.
  unfold BookDetailScreen.bookRecipes. induction l as [|r l IH]; simpl.
  - destruct (str_eqb j i); reflexivity.
  - rewrite bookId_is_detached, IH.
    destruct (str_eqb j i) eqn:Ej; [reflexivity|].
    destruct (bookId_is r j) eqn:Er; [|reflexivity].
    destruct (bookId_is r i) eqn:Ei; [|reflexivity].
    apply bookId_is_true in Er, Ei. apply str_eqb_neq in Ej. congruence.
Qed.

Lemma personal_after_detach (i : jsstring) (l : list Recipe.t) :
  List.length (filter personal
    (map (fun r => if bookId_is r i then without_book r else r) l))
  = List.length (filter personal l) + List.length (BookDetailScreen.bookRecipes l i).
Proof.
  unfold BookDetailScreen.bookRecipes. induction l as [|r l IH]; simpl; [reflexivity|].
  destruct (bookId_is r i) eqn:E.
  - apply bookId_is_true in E.
    change (personal (without_book r)) with true.
    assert (Hp : personal r = false) by (unfold personal; rewrite E; reflexivity).
    rewrite Hp. simpl. rewrite IH. lia.
  - destruct (personal r); simpl; rewrite IH; reflexivity.
Qed.

(** X10.  Deleting a book a second time changes nothing more, and once a
    book is deleted no recipe is attached to its id. *)
Theorem deleteBook_idempotent (i : jsstring) (s : Store) :
  after (deleteBook i) (after (deleteBook i) s) = after (deleteBook i) s /\
  attached i (after (deleteBook i) s) = 0.
Proof.
  assert (Hno : BookDetailScreen.bookRecipes (recipes (after (deleteBook i) s)) i = []).
  { rewrite after_deleteBook; simpl. rewrite bookRecipes_after_detach.
    rewrite str_eqb_refl. reflexivity. }
  split.
  - rewrite (after_deleteBook i (after (deleteBook i) s)).
    rewrite (@filter_remove_absent _ Book.id i).
    + rewrite detach_unreferenced; [apply store_eta|].
      rewrite after_deleteBook; simpl. intros r. apply detached_not_attached.
    + rewrite after_deleteBook; simpl. intros b Hb.
      apply (In_remove_by_id Book.id) in Hb. tauto.
  - unfold attached. unfold BookDetailScreen.bookRecipes in Hno. rewrite Hno.
    reflexivity.
Qed.

(** X11.  When a book is deleted, the recipe list of every other book stays
    what it was, the list of the deleted book becomes empty, and the
    recipes without book grow by exactly the number of recipes the book
    detail screen announces in its confirmation ([bookRecipes.length]). *)
Theorem deleteBook_moves_recipes_to_personal (i : jsstring) (s : Store) :
  (forall j,
     BookDetailScreen.bookRecipes (recipes (after (deleteBook i) s)) j
     = if str_eqb j i then [] else BookDetailScreen.bookRecipes (recipes s) j) /\
  List.length (filter personal (recipes (after (deleteBook i) s)))
  = List.length (filter personal (recipes s))
    + List.length (BookDetailScreen.bookRecipes (recipes s) i).
Proof.
  rewrite after_deleteBook; simpl. split.
  - intros j. apply bookRecipes_after_detach.
  - apply personal_after_detach.
Qed.

Lemma find_by_id_found {A} (key : A -> jsstring) (i : jsstring) (l : list A) :
  find_by_id key i l <> None <-> Array_includes (map key l) i = true.
Proof.
  unfold find_by_id, Array_includes. induction l as [|x l IH]; simpl.
  - split; [intros H; contradiction | discriminate].
  - destruct (str_eqb (key x) i); simpl; [split; [reflexivity | discriminate] | exact IH].
Qed.

Lemma resolved_check (s : Store) :
  forallb (fun r =>
    match Recipe.bookId r with
    | Some i => Array_includes (map Book.id (books s)) i
    | None => true
    end) (recipes s) = true ->
  resolved s.
Proof.
  rewrite forallb_forall. intros H r i Hr E. specialize (H r Hr). rewrite E in H.
  apply find_by_id_found, H.
Qed.

(** X12.  References from recipes to books stay valid under the operations
    on books and under the operations that do not write [bookId]: when every
    [bookId] of the store finds a book, it still does after [deleteBook]
    (which detaches what pointed to the deleted book), [addBook],
    [updateBook], [deleteRecipe] and [toggleFavorite]. *)
Theorem references_stay_resolved (s : Store) (book : Book.t) (i : jsstring) :
  resolved s ->
  resolved (after (deleteBook i) s) /\
  resolved (after (addBook book) s) /\
  resolved (after (updateBook book) s) /\
  resolved (after (deleteRecipe i) s) /\
  resolved (after (toggleFavorite i) s).
Proof.
  intros H. split; [|split; [|split; [|split]]].
  - rewrite after_deleteBook. intros r' k; simpl. rewrite in_map_iff.
    intros [r [Er Hr]] Ek. rewrite (find_by_id_removed Book.id).
    destruct (bookId_is r i) eqn:Eb; subst r'; [discriminate|].
    assert (Hk : str_eqb k i = false).
    { apply str_eqb_neq. intros ->. apply bookId_is_true in Ek. congruence. }
    rewrite Hk. apply (H r k Hr Ek).
  - rewrite after_addBook. intros r k; simpl. intros Hr Ek.
    rewrite find_by_id_snoc. specialize (H r k Hr Ek).
    destruct (find_by_id Book.id k (books s)); [discriminate | contradiction].
  - rewrite after_updateBook. intros r k; simpl. intros Hr Ek.
    specialize (H r k Hr Ek).
    apply find_by_id_found. rewrite (ids_after_replace Book.id).
    apply find_by_id_found, H.
  - rewrite after_deleteRecipe. intros r k; simpl. intros Hr Ek.
    apply (In_remove_by_id Recipe.id) in Hr as [Hr _]. apply (H r k Hr Ek).
  - rewrite after_toggleFavorite. intros r' k; simpl. rewrite in_map_iff.
    intros [r [Er Hr]] Ek. apply (H r k Hr).
    destruct (str_eqb (Recipe.id r) i); subst r'; exact Ek.
Qed.

(** The theorem at the initial state: after the book ["1"] is deleted every
    remaining reference finds its book. *)
Lemma references_stay_resolved_initial : resolved (after (deleteBook (js "1")) initial).
Proof.
  exact (proj1 (@references_stay_resolved initial
    (Book.mk (js "5") (js "Tartes") (js "Eric Kayser") None None None None None
       (js "2024-06-01T00:00:00.000Z"))
    (js "1") (@resolved_check initial eq_refl))).
Defined.

(** X13.  The tag registry stays free of duplicates: [addTag] never breaks
    that, and neither do [addRecipe] and [updateRecipe] when the tags of the
    recipe are themselves free of duplicates. *)
Theorem registry_stays_duplicate_free (s : Store) (recipe : Recipe.t) (tag : jsstring) :
  NoDup (tags s) -> NoDup (Recipe.tags recipe) ->
  NoDup (tags (after (addRecipe recipe) s)) /\
  NoDup (tags (after (updateRecipe recipe) s)) /\
  NoDup (tags (after (addTag tag) s)).
Proof.
  intros Hs Hr. rewrite after_addRecipe, after_updateRecipe, after_addTag; simpl.
  assert (Happ : NoDup (tags s ++ unseen_tags s recipe)).
  { apply NoDup_app; [exact Hs | apply NoDup_filter, Hr |].
    intros t Ht Hu. apply In_unseen_tags in Hu as [_ Hu]. contradiction. }
  split; [exact Happ|]. split; [exact Happ|].
  destruct (Array_includes (tags s) tag) eqn:E; [exact Hs|].
  apply NoDup_snoc; [exact Hs|]. rewrite <- Array_includes_In, E. discriminate.
Qed.

Lemma NoDup_check (l : list jsstring) :
  (fix nodup (l : list jsstring) : bool :=
     match l with
     | [] => true
     | x :: l' => negb (Array_includes l' x) && nodup l'
     end) l = true ->
  NoDup l.
Proof.
  induction l as [|x l IH]; intros H; constructor.
  - apply andb_true_iff in H as [H _]. apply negb_true_iff in H.
    rewrite <- Array_includes_In, H. discriminate.
  - apply IH. apply andb_true_iff in H as [_ H]. exact H.
Qed.

(** The theorem at the initial state with a recipe tagged ["hiver"] and
    ["plat"]. *)
Lemma registry_stays_duplicate_free_initial :
  NoDup (tags (after (addRecipe
    (Recipe.mk (js "6") (js "Soupe") None [js "hiver"; js "plat"] (js "") false None
       (js "2024-06-01T00:00:00.000Z"))) initial)).
Proof.
  exact (proj1 (@registry_stays_duplicate_free initial
    (Recipe.mk (js "6") (js "Soupe") None [js "hiver"; js "plat"] (js "") false None
       (js "2024-06-01T00:00:00.000Z"))
    (js "hiver")
    (@NoDup_check (tags initial) eq_refl)
    (@NoDup_check [js "hiver"; js "plat"] eq_refl))).
Defined.

(** X14.  [addTag] makes the tag a member of the registry, changes nothing
    else, changes nothing at all when the tag is registered already, and has
    no further effect when it is called again. *)
Theorem addTag_idempotent (tag : jsstring) (s : Store) :
  In tag (tags (after (addTag tag) s)) /\
  after (addTag tag) (after (addTag tag) s) = after (addTag tag) s /\
  (Array_includes (tags s) tag = true -> after (addTag tag) s = s) /\
  books (after (addTag tag) s) = books s /\
  recipes (after (addTag tag) s) = recipes s /\
  collections (after (addTag tag) s) = collections s.
Proof.
  assert (Hin : In tag (tags (after (addTag tag) s))).
  { rewrite after_addTag; simpl. destruct (Array_includes (tags s) tag) eqn:E.
    - apply Array_includes_In, E.
    - apply in_or_app; right; left; reflexivity. }
  split; [exact Hin|]. split; [|split].
  - rewrite (after_addTag tag (after (addTag tag) s)).
    apply Array_includes_In in Hin. rewrite Hin. apply store_eta.
  - intros E. rewrite after_addTag, E. apply store_eta.
  - rewrite after_addTag; simpl. repeat split.
Qed.

(** ** Tag pickers of the screens *)

Lemma In_remove_tag (tag t : jsstring) (l : list jsstring) :
  In t (filter (fun u => negb (str_eqb u tag)) l) <-> In t l /\ t <> tag.
Proof. rewrite filter_In, negb_true_iff, str_eqb_neq. reflexivity. Qed.

Lemma remove_absent_tag (tag : jsstring) (l : list jsstring) :
  ~ In tag l -> filter (fun u => negb (str_eqb u tag)) l = l.
Proof.
  intros H. apply (@filter_remove_absent _ (fun u => u) tag l).
  intros x Hx E. subst x. exact (H Hx).
Qed.

(** X15.  [toggleTag] flips the membership of the tag and of no other tag,
    and keeps a selection free of duplicates; the collection detail screen
    and the collections screen toggle in the same way. *)
Theorem toggleTag_flips (tag : jsstring) (selectedTags : list jsstring) :
  (In tag (CollectionsScreen.toggleTag tag selectedTags) <-> ~ In tag selectedTags) /\
  (forall t, t <> tag ->
     (In t (CollectionsScreen.toggleTag tag selectedTags) <-> In t selectedTags)) /\
  (NoDup selectedTags -> NoDup (CollectionsScreen.toggleTag tag selectedTags)) /\
  CollectionDetailScreen.toggleTag tag selectedTags
  = CollectionsScreen.toggleTag tag selectedTags.
Proof.
  unfold CollectionsScreen.toggleTag, CollectionDetailScreen.toggleTag.
  destruct (Array_includes selectedTags tag) eqn:E.
  - assert (Hin : In tag selectedTags) by (apply Array_includes_In, E).
    split; [|split; [|split]].
    + rewrite In_remove_tag. tauto.
    + intros t Ht. rewrite In_remove_tag. tauto.
    + apply NoDup_filter.
    + reflexivity.
  - assert (Hnin : ~ In tag selectedTags)
      by (rewrite <- Array_includes_In, E; discriminate).
    split; [|split; [|split]].
    + rewrite in_app_iff; simpl. tauto.
    + intros t Ht. rewrite in_app_iff; simpl. split; [|tauto].
      intros [H | [H | []]]; [exact H | congruence].
    + intros H. apply NoDup_snoc; assumption.
    + reflexivity.
Qed.

(** The theorem on the selection [facile; rapide]. *)
Lemma toggleTag_flips_example :
  NoDup (CollectionsScreen.toggleTag (js "facile") [js "facile"; js "rapide"]).
Proof.
  exact (proj1 (proj2 (proj2 (toggleTag_flips (js "facile") [js "facile"; js "rapide"])))
           (@NoDup_check [js "facile"; js "rapide"] eq_refl)).
Defined.

Lemma trim_proper (s : jsstring) : trim s <> [] -> proper_name (trim s).
Proof. intros H. split; [exact H | apply trim_idempotent]. Qed.

(** X16.  [handleAddTag] either leaves the selection as it is or appends
    the trimmed tag, which is then not empty and was not selected; a tag that
    is not blank is selected afterwards; a selection free of duplicates stays
    so; and a second call with the same tag adds nothing.  The recipe detail
    screen adds tags in the same way. *)
Theorem handleAddTag_appends_trimmed (tag tagInput : jsstring)
  (selectedTags : list jsstring) :
  (fst (AddRecipeScreen.handleAddTag tag (selectedTags, tagInput)) = selectedTags \/
   fst (AddRecipeScreen.handleAddTag tag (selectedTags, tagInput))
   = selectedTags ++ [trim tag] /\ proper_name (trim tag) /\ ~ In (trim tag) selectedTags) /\
  (trim tag <> [] ->
   In (trim tag) (fst (AddRecipeScreen.handleAddTag tag (selectedTags, tagInput)))) /\
  (NoDup selectedTags ->
   NoDup (fst (AddRecipeScreen.handleAddTag tag (selectedTags, tagInput)))) /\
  fst (AddRecipeScreen.handleAddTag tag
         (AddRecipeScreen.handleAddTag tag (selectedTags, tagInput)))
  = fst (AddRecipeScreen.handleAddTag tag (selectedTags, tagInput)) /\
  RecipeDetailScreen.handleAddTag tag (selectedTags, tagInput)
  = AddRecipeScreen.handleAddTag tag (selectedTags, tagInput).
Proof.
  unfold AddRecipeScreen.handleAddTag, RecipeDetailScreen.handleAddTag.
  destruct (truthy (trim tag)) eqn:Et; destruct (Array_includes selectedTags (trim tag)) eqn:Ei;
    simpl; rewrite ?Et, ?Ei; simpl.
  - apply Array_includes_In in Ei. repeat split; auto.
  - assert (Hnin : ~ In (trim tag) selectedTags)
      by (rewrite <- Array_includes_In, Ei; discriminate).
    apply truthy_nonempty in Et.
    assert (Hnow : Array_includes (selectedTags ++ [trim tag]) (trim tag) = true).
    { apply Array_includes_In, in_or_app. right; left; reflexivity. }
    rewrite Hnow; simpl.
    split; [right; split; [reflexivity | split; [apply trim_proper, Et | exact Hnin]]|].
    split; [intros _; apply in_or_app; right; left; reflexivity|].
    split; [intros H; apply NoDup_snoc; assumption|].
    split; reflexivity.
  - apply Array_includes_In in Ei. repeat split; auto.
  - repeat split; auto.
    intros H. apply truthy_nonempty in H. congruence.
Qed.

(** The theorem on the selection [plat] and the input [" hiver "]. *)
Lemma handleAddTag_appends_trimmed_example :
  NoDup (fst (AddRecipeScreen.handleAddTag (js " hiver ") ([js "plat"], js "hi"))).
Proof.
  exact (proj1 (proj2 (proj2
           (handleAddTag_appends_trimmed (js " hiver ") (js "hi") [js "plat"])))
           (@NoDup_check [js "plat"] eq_refl)).
Defined.

(** X17.  [handleRemoveTag] removes the tag and no other tag, and it undoes
    [handleAddTag]: removing the trimmed tag after adding it gives back a
    selection that did not hold it. *)
Theorem handleRemoveTag_undoes_add (tag tagInput : jsstring)
  (selectedTags : list jsstring) :
  ~ In tag (AddRecipeScreen.handleRemoveTag tag selectedTags) /\
  (forall t, t <> tag ->
     (In t (AddRecipeScreen.handleRemoveTag tag selectedTags) <-> In t selectedTags)) /\
  (~ In (trim tag) selectedTags ->
   AddRecipeScreen.handleRemoveTag (trim tag)
     (fst (AddRecipeScreen.handleAddTag tag (selectedTags, tagInput)))
   = selectedTags) /\
  RecipeDetailScreen.handleRemoveTag tag selectedTags
  = AddRecipeScreen.handleRemoveTag tag selectedTags.
Proof.
  unfold AddRecipeScreen.handleRemoveTag, RecipeDetailScreen.handleRemoveTag.
  split; [rewrite In_remove_tag; tauto|].
  split; [intros t Ht; rewrite In_remove_tag; tauto|].
  split; [|reflexivity].
  intros Hnin. unfold AddRecipeScreen.handleAddTag.
  destruct (truthy (trim tag) && negb (Array_includes selectedTags (trim tag))); simpl.
  - rewrite filter_app; simpl. rewrite str_eqb_refl; simpl.
    rewrite app_nil_r. apply remove_absent_tag, Hnin.
  - apply remove_absent_tag, Hnin.
Qed.

(** The theorem on the selection [plat] and the input [" hiver "]. *)
Lemma handleRemoveTag_undoes_add_example :
  AddRecipeScreen.handleRemoveTag (trim (js " hiver "))
    (fst (AddRecipeScreen.handleAddTag (js " hiver ") ([js "plat"], js "hi")))
  = [js "plat"].
Proof.
  apply (proj1 (proj2 (proj2
           (handleRemoveTag_undoes_add (js " hiver ") (js "hi") [js "plat"])))).
  rewrite <- Array_includes_In. vm_compute. discriminate.
Defined.

(** ** Search and collections, continued *)

Lemma includes_trans (s q2 q1 : jsstring) :
  includes s q2 = true -> includes q2 q1 = true -> includes s q1 = true.
Proof.
  rewrite !includes_spec. intros (a & b & ->) (c & d & ->).
  exists (a ++ c), (d ++ b). rewrite <- !app_assoc. reflexivity.
Qed.

Lemma and_then_narrows (o : option jsstring) (f g : jsstring -> bool) :
  (forall s, f s = true -> g s = true) -> and_then o f = true -> and_then o g = true.
Proof.
  intros H. unfold and_then. destruct o as [s|]; [|discriminate].
  rewrite !andb_true_iff. intros [H1 H2]. split; [exact H1 | apply H, H2].
Qed.

(** X18.  A longer query never finds more: when the lower-cased query [q1]
    is contained in the lower-cased query [q2], every book and every recipe
    found with [q2] is found with [q1]. *)
Theorem longer_query_narrows_search (toLowerCase : jsstring -> jsstring)
  (q1 q2 : jsstring) (showFavoritesOnly : bool) (books : list Book.t)
  (recipes : list Recipe.t) :
  includes (toLowerCase q2) (toLowerCase q1) = true ->
  incl (BooksScreen.filteredBooks toLowerCase q2 books)
    (BooksScreen.filteredBooks toLowerCase q1 books) /\
  incl (RecipesScreen.filteredRecipes toLowerCase q2 showFavoritesOnly recipes)
    (RecipesScreen.filteredRecipes toLowerCase q1 showFavoritesOnly recipes).
Proof.
  intros Hq.
  assert (Hn : forall s, includes (toLowerCase s) (toLowerCase q2) = true ->
                         includes (toLowerCase s) (toLowerCase q1) = true)
    by (intros s H; exact (includes_trans _ _ _ H Hq)).
  split.
  - intros b. unfold BooksScreen.filteredBooks. rewrite !filter_In.
    intros [Hb H]. split; [exact Hb|].
    rewrite !orb_true_iff in *.
    destruct H as [[[H | H] | H] | H].
    + left; left; left. apply Hn, H.
    + left; left; right. apply Hn, H.
    + left; right. revert H. apply and_then_narrows. exact Hn.
    + right. revert H. apply and_then_narrows. exact Hn.
  - intros r. unfold RecipesScreen.filteredRecipes. rewrite !filter_In.
    intros [Hr H]. split; [exact Hr|].
    rewrite !andb_true_iff, !orb_true_iff in *.
    destruct H as [H Hf]. split; [|exact Hf].
    destruct H as [H | H]; [left; apply Hn, H|].
    right. rewrite existsb_exists in *. destruct H as [t [Ht H]].
    exists t. split; [exact Ht | apply Hn, H].
Qed.

(** The theorem with the Latin-1 lower-casing and the queries ["tis"] and
    ["Pâtisserie"] on the initial state. *)
Lemma longer_query_narrows_search_initial :
  incl (BooksScreen.filteredBooks toLowerCase_latin1 (js "Pâtisserie") INITIAL_BOOKS)
    (BooksScreen.filteredBooks toLowerCase_latin1 (js "tis") INITIAL_BOOKS).
Proof.
  exact (proj1 (@longer_query_narrows_search toLowerCase_latin1 (js "tis")
                  (js "Pâtisserie") false INITIAL_BOOKS INITIAL_RECIPES eq_refl)).
Defined.

(** X19.  With an empty search, the recipes screen lists every recipe, and
    with the favorites filter on it lists exactly the recipes the home
    screen counts as favorites. *)
Theorem empty_search_lists_favorites (toLowerCase : jsstring -> jsstring)
  (recipes : list Recipe.t) :
  toLowerCase [] = [] ->
  RecipesScreen.filteredRecipes toLowerCase [] false recipes = recipes /\
  RecipesScreen.filteredRecipes toLowerCase [] true recipes
  = HomeScreen.favoriteRecipes recipes.
Proof.
  intros Hnil. unfold RecipesScreen.filteredRecipes, HomeScreen.favoriteRecipes.
  rewrite Hnil. split.
  - induction recipes as [|r l IH]; simpl; [reflexivity|].
    rewrite includes_empty; simpl. f_equal. exact IH.
  - apply filter_ext. intros r. rewrite includes_empty. reflexivity.
Qed.

(** The theorem with the Latin-1 lower-casing on the initial state. *)
Lemma empty_search_lists_favorites_initial :
  RecipesScreen.filteredRecipes toLowerCase_latin1 [] true INITIAL_RECIPES
  = HomeScreen.favoriteRecipes INITIAL_RECIPES.
Proof.
  exact (proj2 (@empty_search_lists_favorites toLowerCase_latin1 INITIAL_RECIPES eq_refl)).
Defined.

(** X20.  A collection with more tags shows at least the same recipes:
    when every tag of [c1] is a tag of [c2], every recipe [c1] shows is shown
    by [c2].  A collection without tags shows nothing, and a recipe without
    tags is shown by no collection. *)
Theorem more_tags_show_more_recipes (c1 c2 : Collection.t) (recipes : list Recipe.t) :
  incl (Collection.tags c1) (Collection.tags c2) ->
  incl (CollectionDetailScreen.filteredRecipes c1 recipes)
    (CollectionDetailScreen.filteredRecipes c2 recipes) /\
  (Collection.tags c1 = [] -> CollectionDetailScreen.filteredRecipes c1 recipes = []) /\
  (forall r, Recipe.tags r = [] ->
     ~ In r (CollectionDetailScreen.filteredRecipes c2 recipes)).
Proof.
  intros Hsub. unfold CollectionDetailScreen.filteredRecipes.
  split; [|split].
  - intros r. rewrite !filter_In, !shares_tag_check.
    intros [Hr (t & Ht & Hc)]. split; [exact Hr|]. exists t. split; [exact Ht | apply Hsub, Hc].
  - intros E. rewrite E.
    rewrite (@filter_ext _ _ (fun _ => false)).
    + induction recipes; simpl; auto.
    + intros r. induction (Recipe.tags r); simpl; auto.
  - intros r E. rewrite filter_In, E. simpl. intros [_ H]; discriminate.
Qed.

(** The theorem on the two collections of the initial state, the second one
    taken with the tag of the first added. *)
Lemma more_tags_show_more_recipes_initial :
  incl
    (CollectionDetailScreen.filteredRecipes
       (Collection.mk (js "2") (js "Repas Rapides") [js "facile"; js "rapide"]
          (js "2024-01-05T00:00:00.000Z")) INITIAL_RECIPES)
    (CollectionDetailScreen.filteredRecipes
       (Collection.mk (js "2") (js "Repas Rapides")
          [js "facile"; js "rapide"; js "dessert"]
          (js "2024-01-05T00:00:00.000Z")) INITIAL_RECIPES).
Proof.
  apply (@more_tags_show_more_recipes
    (Collection.mk (js "2") (js "Repas Rapides") [js "facile"; js "rapide"]
       (js "2024-01-05T00:00:00.000Z"))
    (Collection.mk (js "2") (js "Repas Rapides")
       [js "facile"; js "rapide"; js "dessert"]
       (js "2024-01-05T00:00:00.000Z"))
    INITIAL_RECIPES).
  simpl. intros t [<- | [<- | []]]; simpl; auto.
Defined.

Lemma filter_map_stable {A} (p : A -> bool) (f : A -> A) (l : list A) :
  (forall x, p (f x) = p x) -> filter p (map f l) = map f (filter p l).
Proof.
  intros H. induction l as [|x l IH]; simpl; [reflexivity|].
  rewrite H, IH. destruct (p x); reflexivity.
Qed.

(** X21.  Deleting a book or toggling a favorite never changes which
    recipes a collection shows: the ids listed, in order, are the same
    before and after. *)
Theorem membership_ignores_books_and_favorites (collection : Collection.t)
  (i : jsstring) (s : Store) :
  map Recipe.id
    (CollectionDetailScreen.filteredRecipes collection (recipes (after (deleteBook i) s)))
  = map Recipe.id (CollectionDetailScreen.filteredRecipes collection (recipes s)) /\
  map Recipe.id
    (CollectionDetailScreen.filteredRecipes collection
       (recipes (after (toggleFavorite i) s)))
  = map Recipe.id (CollectionDetailScreen.filteredRecipes collection (recipes s)).
Proof.
  rewrite after_deleteBook, after_toggleFavorite; simpl.
  unfold CollectionDetailScreen.filteredRecipes. split.
  - rewrite filter_map_stable by (intros r; destruct (bookId_is r i); reflexivity).
    apply ids_after_detach.
  - rewrite filter_map_stable
      by (intros r; destruct (str_eqb (Recipe.id r) i); reflexivity).
    apply ids_after_toggle.
Qed.

(** X22.  The add-book form offers suggestions only once the title and the
    author are filled in: it returns nothing exactly when one of them is
    blank, and three suggestions in descending order of confidence
    otherwise. *)
Theorem getSuggestions_needs_title_and_author (toLowerCase : jsstring -> jsstring)
  (title author pseudonym : jsstring) :
  (AddBookScreen.getSuggestions toLowerCase title author pseudonym = []
   <-> trim title = [] \/ trim author = []) /\
  (List.length (AddBookScreen.getSuggestions toLowerCase title author pseudonym) = 0 \/
   List.length (AddBookScreen.getSuggestions toLowerCase title author pseudonym) = 3) /\
  StronglySorted confidence_ge
    (AddBookScreen.getSuggestions toLowerCase title author pseudonym).
Proof.
  unfold AddBookScreen.getSuggestions.
  destruct (truthy (trim title)) eqn:Et; destruct (truthy (trim author)) eqn:Ea; simpl.
  - apply truthy_nonempty in Et, Ea. rewrite suggestBookCategory_expected.
    split; [split; [discriminate | tauto]|].
    split; [right; reflexivity|].
    rewrite <- (suggestBookCategory_expected toLowerCase title author (Some pseudonym)).
    apply Array_sort_sorted.
  - unfold truthy in Ea. apply negb_false_iff, str_eqb_eq in Ea.
    split; [tauto|]. split; [left; reflexivity | constructor].
  - unfold truthy in Et. apply negb_false_iff, str_eqb_eq in Et.
    split; [tauto|]. split; [left; reflexivity | constructor].
  - unfold truthy in Et. apply negb_false_iff, str_eqb_eq in Et.
    split; [tauto|]. split; [left; reflexivity | constructor].
Qed.

(** ** Forms *)

Lemma after_ret {A} (a : A) (s : Store) : after (ret a : Handler A) s = s.
Proof. reflexivity. Qed.

Lemma after_then_ret {A B} (m : Handler A) (b : B) (s : Store) :
  after (m ;; ret b) s = after m s.
Proof.
  unfold after, rendered_after. cbn. destruct (m s (mkFrame 0 [])). reflexivity.
Qed.

Lemma returned_then_ret {A B} (m : Handler A) (b : B) (s : Store) :
  returned (m ;; ret b) s = b.
Proof.
  unfold returned. cbn. destruct (m s (mkFrame 0 [])). reflexivity.
Qed.

Lemma truthy_false (s : jsstring) : truthy s = false <-> s = [].
Proof. unfold truthy. rewrite negb_false_iff. apply str_eqb_eq. Qed.

Lemma truthy_trim_proper (s : jsstring) : truthy (trim s) = true -> proper_name (trim s).
Proof. intros H. apply trim_proper, truthy_nonempty, H. Qed.

Lemma Forall_replace {A} (P : A -> Prop) (key : A -> jsstring) (new : A) (l : list A) :
  P new -> Forall P l ->
  Forall P (map (fun x => if str_eqb (key x) (key new) then new else x) l).
Proof.
  intros Hn Hl. induction Hl as [|x l Hx _ IH]; simpl; constructor; [|exact IH].
  destruct (str_eqb (key x) (key new)); assumption.
Qed.

Lemma Forall_snoc {A} (P : A -> Prop) (x : A) (l : list A) :
  P x -> Forall P l -> Forall P (l ++ [x]).
Proof. intros Hx Hl. apply Forall_app. split; [exact Hl | constructor; auto]. Qed.

(** X23.  The forms keep the collections well formed: when every collection
    of the store has a name that is not empty, carries no white space around
    it, and at least one tag, this still holds after [handleCreateCollection]
    and after [saveEditing] of the collection detail screen, whatever was
    typed and selected. *)
Theorem forms_keep_collections_well_formed (s : Store) (nowId nowIso : jsstring)
  (newCollectionName : jsstring) (selectedTags : list jsstring)
  (collection : Collection.t) (editedName : jsstring) (editedTags : list jsstring) :
  Forall well_formed_collection (collections s) ->
  Forall well_formed_collection
    (collections
       (after (CollectionsScreen.handleCreateCollection nowId nowIso newCollectionName
                 selectedTags) s)) /\
  Forall well_formed_collection
    (collections
       (after (CollectionDetailScreen.saveEditing collection editedName editedTags) s)).
Proof.
  intros H. split.
  - unfold CollectionsScreen.handleCreateCollection.
    destruct (truthy (trim newCollectionName)) eqn:En;
      cbn [negb]; [|exact H].
    destruct selectedTags as [|t ts]; cbn [List.length Nat.eqb]; [exact H|].
    rewrite after_then_ret, after_addCollection; simpl.
    apply Forall_snoc; [|exact H].
    split; [apply truthy_trim_proper, En | discriminate].
  - unfold CollectionDetailScreen.saveEditing.
    destruct (truthy (trim editedName)) eqn:En; cbn [negb]; [|exact H].
    destruct editedTags as [|t ts]; cbn [List.length Nat.eqb]; [exact H|].
    rewrite after_then_ret, after_updateCollection; simpl.
    apply (@Forall_replace _ well_formed_collection Collection.id
             (Collection.mk (Collection.id collection) (trim editedName) (t :: ts)
                (Collection.createdAt collection))); [|exact H].
    split; [apply truthy_trim_proper, En | discriminate].
Qed.

Lemma initial_collections_well_formed :
  Forall well_formed_collection (collections initial).
Proof.
  repeat constructor; simpl; try discriminate; vm_compute; reflexivity.
Qed.

(** The theorem at the initial state, with a name typed with white space
    around it. *)
Lemma forms_keep_collections_well_formed_initial :
  Forall well_formed_collection
    (collections
       (after (CollectionsScreen.handleCreateCollection (js "1717243200000")
                 (js "2024-06-01T12:00:00.000Z") (js "  Hiver ") [js "plat"]) initial)).
Proof.
  exact (proj1 (@forms_keep_collections_well_formed initial (js "1717243200000")
    (js "2024-06-01T12:00:00.000Z") (js "  Hiver ") [js "plat"]
    (Collection.mk (js "1") (js "Mes Favoris") [js "favoris"]
       (js "2024-01-01T00:00:00.000Z"))
    (js "Favoris") [js "favoris"] initial_collections_well_formed)).
Defined.

(** X24.  The forms keep the recipes named: when every recipe of the store
    has a name that is not empty and carries no white space around it, this
    still holds after [handleSave] of the add-recipe screen, after
    [saveEditing] of the recipe detail screen, and after [quickAddTag] on a
    recipe of the store. *)
Theorem forms_keep_recipes_named (s : Store) (nowId nowIso name : jsstring)
  (selectedBookId : option jsstring) (notes : jsstring) (selectedTags : list jsstring)
  (recipe : Recipe.t) (editedName editedNotes : jsstring) (editedTags : list jsstring)
  (editedRecipeImage : option jsstring) (tag : jsstring) :
  Forall (fun r => proper_name (Recipe.name r)) (recipes s) ->
  In recipe (recipes s) ->
  Forall (fun r => proper_name (Recipe.name r))
    (recipes (after (AddRecipeScreen.handleSave nowId nowIso name selectedBookId notes
                       selectedTags) s)) /\
  Forall (fun r => proper_name (Recipe.name r))
    (recipes (after (RecipeDetailScreen.saveEditing recipe editedName editedNotes
                       editedTags editedRecipeImage) s)) /\
  Forall (fun r => proper_name (Recipe.name r))
    (recipes (after (RecipeDetailScreen.quickAddTag recipe tag) s)).
Proof.
  intros H Hin. split; [|split].
  - unfold AddRecipeScreen.handleSave.
    destruct (truthy (trim name)) eqn:En; cbn [negb]; [|exact H].
    rewrite after_then_ret, after_addRecipe; simpl.
    apply Forall_snoc; [apply truthy_trim_proper, En | exact H].
  - unfold RecipeDetailScreen.saveEditing.
    destruct (truthy (trim editedName)) eqn:En; cbn [negb]; [|exact H].
    rewrite after_then_ret, after_updateRecipe; simpl.
    apply (@Forall_replace _ (fun r => proper_name (Recipe.name r)) Recipe.id
             (Recipe.mk (Recipe.id recipe) (trim editedName) (Recipe.bookId recipe)
                editedTags (trim editedNotes) (Recipe.isFavorite recipe)
                editedRecipeImage (Recipe.createdAt recipe))); [|exact H].
    apply truthy_trim_proper, En.
  - unfold RecipeDetailScreen.quickAddTag.
    destruct (Array_includes (Recipe.tags recipe) tag); cbn [negb]; [exact H|].
    rewrite after_updateRecipe; simpl.
    apply (@Forall_replace _ (fun r => proper_name (Recipe.name r)) Recipe.id
             (Recipe.mk (Recipe.id recipe) (Recipe.name recipe) (Recipe.bookId recipe)
                (Recipe.tags recipe ++ [tag]) (Recipe.notes recipe)
                (Recipe.isFavorite recipe) (Recipe.recipeImage recipe)
                (Recipe.createdAt recipe))); [|exact H].
    rewrite Forall_forall in H. apply (H recipe Hin).
Qed.

Lemma initial_recipes_named :
  Forall (fun r => proper_name (Recipe.name r)) (recipes initial).
Proof.
  repeat constructor; simpl; try discriminate; vm_compute; reflexivity.
Qed.

(** The theorem at the initial state, with a name typed with white space
    around it and the first recipe of the store on the detail screen. *)
Lemma forms_keep_recipes_named_initial :
  Forall (fun r => proper_name (Recipe.name r))
    (recipes (after (AddRecipeScreen.handleSave (js "1717243200000")
                       (js "2024-06-01T12:00:00.000Z") (js " Soupe ") None (js "")
                       [js "hiver"]) initial)).
Proof.
  exact (proj1 (@forms_keep_recipes_named initial (js "1717243200000")
    (js "2024-06-01T12:00:00.000Z") (js " Soupe ") None (js "") [js "hiver"]
    (Recipe.mk (js "1") (js "Poulet rôti aux herbes") (Some (js "1"))
       [js "plat"; js "viande"; js "facile"]
       (js "Excellent ! Ajouter plus de thym la prochaine fois.") true None
       (js "2024-01-20T00:00:00.000Z"))
    (js "Poulet") (js "") [js "plat"] None (js "hiver")
    initial_recipes_named (or_introl eq_refl))).
Defined.

(** X25.  A form that raises its error alert changes nothing: with a blank
    name, or with no tag for a collection, or with a blank or already present
    custom tag, the store after the handler is the store of before; and the
    handlers raise no alert otherwise. *)
Theorem rejected_forms_change_nothing (s : Store) (nowId nowIso name : jsstring)
  (selectedBookId : option jsstring) (notes : jsstring) (selectedTags : list jsstring)
  (collection : Collection.t) (recipe : Recipe.t) (editedNotes : jsstring)
  (editedRecipeImage : option jsstring) :
  (trim name = [] \/ selectedTags = [] <->
   returned (CollectionsScreen.handleCreateCollection nowId nowIso name selectedTags) s
   <> None) /\
  (trim name = [] \/ selectedTags = [] ->
   after (CollectionsScreen.handleCreateCollection nowId nowIso name selectedTags) s = s /\
   after (CollectionDetailScreen.saveEditing collection name selectedTags) s = s) /\
  (trim name = [] ->
   after (AddRecipeScreen.handleSave nowId nowIso name selectedBookId notes selectedTags) s
   = s /\
   after (RecipeDetailScreen.saveEditing recipe name editedNotes selectedTags
            editedRecipeImage) s = s) /\
  (trim name = [] \/ In (trim name) (Recipe.tags recipe) <->
   returned (RecipeDetailScreen.handleAddCustomTag recipe name) s <> None) /\
  (trim name = [] \/ In (trim name) (Recipe.tags recipe) ->
   after (RecipeDetailScreen.handleAddCustomTag recipe name) s = s).
Proof.
  unfold CollectionsScreen.handleCreateCollection, CollectionDetailScreen.saveEditing,
    AddRecipeScreen.handleSave, RecipeDetailScreen.saveEditing,
    RecipeDetailScreen.handleAddCustomTag.
  rewrite <- (Array_includes_In (Recipe.tags recipe) (trim name)).
  destruct (truthy (trim name)) eqn:En; cbn [negb].
  - apply truthy_nonempty in En.
    split; [|split; [|split; [|split]]].
    + destruct selectedTags; cbn [List.length Nat.eqb].
      * split; [intros _; unfold returned; cbn; discriminate | tauto].
      * rewrite returned_then_ret. split; [intros [H | H]; congruence | congruence].
    + intros [H | H]; [contradiction|]. subst selectedTags. split; reflexivity.
    + intros H; contradiction.
    + destruct (Array_includes (Recipe.tags recipe) (trim name)).
      * split; [intros _; unfold returned; cbn; discriminate | tauto].
      * rewrite returned_then_ret. split; [intros [H | H]; congruence | congruence].
    + intros [H | H]; [contradiction|]. rewrite H. reflexivity.
  - apply truthy_false in En.
    split; [|split; [|split; [|split]]].
    + split; [intros _; unfold returned; cbn; discriminate | tauto].
    + intros _. split; reflexivity.
    + intros _. split; reflexivity.
    + split; [intros _; unfold returned; cbn; discriminate | tauto].
    + intros _. reflexivity.
Qed.

(** The theorem at the initial state with a blank name. *)
Lemma rejected_forms_change_nothing_initial :
  after (AddRecipeScreen.handleSave (js "1717243200000") (js "2024-06-01T12:00:00.000Z")
           (js "   ") None (js "") [js "hiver"]) initial
  = initial.
Proof.
  apply (proj1 (proj2 (proj2 (@rejected_forms_change_nothing initial
    (js "1717243200000") (js "2024-06-01T12:00:00.000Z") (js "   ") None (js "")
    [js "hiver"]
    (Collection.mk (js "1") (js "Mes Favoris") [js "favoris"]
       (js "2024-01-01T00:00:00.000Z"))
    (Recipe.mk (js "1") (js "Poulet rôti aux herbes") (Some (js "1"))
       [js "plat"; js "viande"; js "facile"]
       (js "Excellent ! Ajouter plus de thym la prochaine fois.") true None
       (js "2024-01-20T00:00:00.000Z"))
    (js "") None)))).
  reflexivity.
Defined.

Lemma find_by_id_key {A} (key : A -> jsstring) (i : jsstring) (l : list A) (x : A) :
  find_by_id key i l = Some x -> key x = i /\ In x l.
Proof.
  unfold find_by_id. intros H. apply find_some in H as [Hin E].
  apply str_eqb_eq in E. split; assumption.
Qed.

(** X26.  [quickAddTag] on the recipe the detail screen shows: afterwards
    the lookup of the same id finds a recipe that carries the tag, with the
    same name, book, notes and favorite flag, and the registry holds the
    tag; when the recipe carried the tag already the store is unchanged. *)
Theorem quickAddTag_then_find (s : Store) (recipeId tag : jsstring) (recipe : Recipe.t) :
  RecipeDetailScreen.recipe (recipes s) recipeId = Some recipe ->
  (exists r',
     RecipeDetailScreen.recipe
       (recipes (after (RecipeDetailScreen.quickAddTag recipe tag) s)) recipeId
     = Some r' /\
     In tag (Recipe.tags r') /\
     incl (Recipe.tags recipe) (Recipe.tags r') /\
     Recipe.name r' = Recipe.name recipe /\
     Recipe.bookId r' = Recipe.bookId recipe /\
     Recipe.notes r' = Recipe.notes recipe /\
     Recipe.isFavorite r' = Recipe.isFavorite recipe) /\
  (In tag (Recipe.tags recipe) ->
   after (RecipeDetailScreen.quickAddTag recipe tag) s = s) /\
  (~ In tag (Recipe.tags recipe) ->
   In tag (tags (after (RecipeDetailScreen.quickAddTag recipe tag) s))).
Proof.
  intros Hfind. pose proof (find_by_id_key _ _ _ Hfind) as [Hid Hin].
  unfold RecipeDetailScreen.quickAddTag, RecipeDetailScreen.recipe in *.
  destruct (Array_includes (Recipe.tags recipe) tag) eqn:E; cbn [negb].
  - apply Array_includes_In in E. split; [|split].
    + exists recipe. rewrite after_ret.
      repeat split; auto using incl_refl.
    + intros _. reflexivity.
    + intros H; contradiction.
  - assert (Hnin : ~ In tag (Recipe.tags recipe))
      by (rewrite <- Array_includes_In, E; discriminate).
    set (new := Recipe.mk (Recipe.id recipe) (Recipe.name recipe) (Recipe.bookId recipe)
                  (Recipe.tags recipe ++ [tag]) (Recipe.notes recipe)
                  (Recipe.isFavorite recipe) (Recipe.recipeImage recipe)
                  (Recipe.createdAt recipe)).
    split; [|split].
    + exists new. rewrite after_updateRecipe; simpl.
      split.
      * rewrite <- Hid. change (Recipe.id recipe) with (Recipe.id new).
        rewrite (find_by_id_replaced Recipe.id new).
        assert (Hinc : Array_includes (map Recipe.id (recipes s)) (Recipe.id new) = true).
        { apply Array_includes_In, in_map_iff. exists recipe. split; [reflexivity | exact Hin]. }
        rewrite Hinc. reflexivity.
      * simpl. repeat split; auto.
        -- apply in_or_app; right; left; reflexivity.
        -- apply incl_appl, incl_refl.
    + intros H; contradiction.
    + intros _. rewrite after_updateRecipe; simpl.
      apply (proj2 (registry_covers new s)). simpl.
      apply in_or_app; right; left; reflexivity.
Qed.

(** The theorem at the initial state, for the recipe ["1"] and the tag
    ["hiver"]. *)
Lemma quickAddTag_then_find_initial :
  In (js "hiver")
    (tags (after (RecipeDetailScreen.quickAddTag
                    (Recipe.mk (js "1") (js "Poulet rôti aux herbes") (Some (js "1"))
                       [js "plat"; js "viande"; js "facile"]
                       (js "Excellent ! Ajouter plus de thym la prochaine fois.") true
                       None (js "2024-01-20T00:00:00.000Z"))
                    (js "hiver")) initial)).
Proof.
  apply (proj2 (proj2 (@quickAddTag_then_find initial (js "1") (js "hiver")
    (Recipe.mk (js "1") (js "Poulet rôti aux herbes") (Some (js "1"))
       [js "plat"; js "viande"; js "facile"]
       (js "Excellent ! Ajouter plus de thym la prochaine fois.") true None
       (js "2024-01-20T00:00:00.000Z"))
    eq_refl))).
  rewrite <- Array_includes_In. vm_compute. discriminate.
Defined.

(** X27.  What the recipe lists show as the source of a recipe once a book
    is deleted: a recipe that was attached to the book is shown as
    ["Recette personnelle"], and every other recipe is shown with the same
    source as before. *)
Theorem deleteBook_relabels_its_recipes (i : jsstring) (s : Store) :
  Forall2 (fun r r' =>
             RecipesScreen.getBookTitle (books (after (deleteBook i) s))
               (Recipe.bookId r')
             = if bookId_is r i then js "Recette personnelle"
               else RecipesScreen.getBookTitle (books s) (Recipe.bookId r))
    (recipes s) (recipes (after (deleteBook i) s)).
Proof.
  rewrite after_deleteBook; simpl.
  induction (recipes s) as [|r l IH]; simpl; constructor; [|exact IH].
  destruct (bookId_is r i) eqn:E; [reflexivity|].
  unfold RecipesScreen.getBookTitle.
  destruct (Recipe.bookId r) as [k|] eqn:Ek; [|reflexivity].
  destruct (truthy k); simpl; [|reflexivity].
  rewrite (find_by_id_removed Book.id).
  assert (Hk : str_eqb k i = false).
  { unfold bookId_is in E. rewrite Ek in E. exact E. }
  rewrite Hk. reflexivity.
Qed.
